(** * The visit-count Lambda handler of [index.py]

    A shallow embedding of [handler(event, context)]: the JSON event as a
    Python value, the [try]/[except Exception] block as an error monad over
    a world made of the key-value store and the standard output, and the
    boto3 client as an interface with a DynamoDB-like instance. *)

From Stdlib Require Import ZArith String Ascii List SpecFloat.
From stdpp Require Import gmap strings list fin_maps pretty relations.

Open Scope string_scope.
Open Scope Z_scope.

(** ** Python values reaching the handler

    The event is whatever the JSON payload decodes to. *)

Module Py.

#[warnings="-register-all"]
Inductive pyval : Type :=
| PNone
| PBool (b : bool)
| PInt (z : Z)
| PFloat (f : spec_float)
| PStr (s : string)
| PList (l : list pyval)
| PDict (d : gmap string pyval).

(** [type(v).__name__] *)
Definition type_name (v : pyval) : string :=
  match v with
  | PNone => "NoneType"
  | PBool _ => "bool"
  | PInt _ => "int"
  | PFloat _ => "float"
  | PStr _ => "str"
  | PList _ => "list"
  | PDict _ => "dict"
  end.

(** [bool(v)], the test behind [not v]. *)
Definition truthy (v : pyval) : bool :=
  match v with
  | PNone => false
  | PBool b => b
  | PInt z => negb (z =? 0)
  | PFloat (S754_zero _) => false
  | PFloat _ => true
  | PStr s => negb (String.eqb s EmptyString)
  | PList l => negb (Nat.eqb (length l) 0)
  | PDict d => negb (Nat.eqb (size d) 0)
  end.

(** The exceptions the handler body can meet; all derive from
    [Exception].  [ClientError] stands for whatever the store client
    raises, carried by its text. *)
Inductive exn : Type :=
| ValueError (msg : string)
| AttributeError (msg : string)
| KeyError (key : string)
| ClientError (msg : string).

(** [str(e)]; a [KeyError] prints the repr of its key. *)
Definition str (e : exn) : string :=
  match e with
  | ValueError msg => msg
  | AttributeError msg => msg
  | KeyError key => "'" ++ key ++ "'"
  | ClientError msg => msg
  end.

(** [obj.get(key, default)]: only a dict has the method. *)
Definition get (obj : pyval) (key : string) (default : pyval) : exn + pyval :=
  match obj with
  | PDict d => inr (from_option id default (d !! key))
  | _ => inl (AttributeError
                ("'" ++ type_name obj ++ "' object has no attribute 'get'"))
  end.

(** [d[key]] on a dict with string keys. *)
Definition getitem {A : Type} (d : gmap string A) (key : string) : exn + A :=
  match d !! key with
  | Some v => inr v
  | None => inl (KeyError key)
  end.

End Py.
Export Py.

(** ** [json.dumps] on the dicts the handler builds

    Both dicts the handler serialises map string keys to strings, so the
    encoder is given for that shape.  A character is its code point;
    [ensure_ascii] escapes everything outside the printable ASCII range. *)

Module Json.

Definition dquote : ascii := "034"%char.
Definition backslash : ascii := "092"%char.

Definition hex_digit (n : N) : ascii :=
  if (n <? 10)%N then ascii_of_N (48 + n) else ascii_of_N (87 + n).

Definition escape_char (c : ascii) : string :=
  let n := N_of_ascii c in
  if (n =? 34)%N then String backslash (String dquote EmptyString)
  else if (n =? 92)%N then String backslash (String backslash EmptyString)
  else if (n =? 10)%N then "\n"
  else if (n =? 13)%N then "\r"
  else if (n =? 9)%N then "\t"
  else if (n =? 8)%N then "\b"
  else if (n =? 12)%N then "\f"
  else if ((32 <=? n) && (n <=? 126))%N then String c EmptyString
  else "\u00" ++ String (hex_digit (n / 16)) (String (hex_digit (n mod 16)) EmptyString).

Fixpoint escape (s : string) : string :=
  match s with
  | EmptyString => EmptyString
  | String c rest => escape_char c ++ escape rest
  end.

Definition quote (s : string) : string :=
  String dquote (escape s) ++ String dquote EmptyString.

Definition member (kv : string * string) : string :=
  quote kv.1 ++ ": " ++ quote kv.2.

Fixpoint members (o : list (string * string)) : string :=
  match o with
  | [] => EmptyString
  | [kv] => member kv
  | kv :: rest => member kv ++ ", " ++ members rest
  end.

(** [json.dumps(o)] with the default separators. *)
Definition dumps (o : list (string * string)) : string :=
  "{" ++ members o ++ "}".

(** *** Decoding

    [json.loads] on the texts [dumps] writes: an object whose members are
    strings. *)

Definition hex_value (c : ascii) : option N :=
  let n := N_of_ascii c in
  if ((48 <=? n) && (n <=? 57))%N then Some (n - 48)%N
  else if ((97 <=? n) && (n <=? 102))%N then Some (n - 87)%N
  else if ((65 <=? n) && (n <=? 70))%N then Some (n - 55)%N
  else None.

Definition hex4 (h1 h2 h3 h4 : ascii) : option N :=
  match hex_value h1, hex_value h2, hex_value h3, hex_value h4 with
  | Some a, Some b, Some c, Some d => Some (((a * 16 + b) * 16 + c) * 16 + d)%N
  | _, _, _, _ => None
  end.

(** The character a two-character escape stands for. *)
Definition unescape_char (e : ascii) : option ascii :=
  let n := N_of_ascii e in
  if (n =? 34)%N then Some dquote
  else if (n =? 92)%N then Some backslash
  else if (n =? 47)%N then Some "/"%char
  else if (n =? 110)%N then Some "010"%char
  else if (n =? 114)%N then Some "013"%char
  else if (n =? 116)%N then Some "009"%char
  else if (n =? 98)%N then Some "008"%char
  else if (n =? 102)%N then Some "012"%char
  else None.

Definition cons_fst (c : ascii) (r : option (string * string)) : option (string * string) :=
  match r with
  | Some (s, rest) => Some (String c s, rest)
  | None => None
  end.

(** The string up to its closing quote, and the text after it. *)
Fixpoint read_string (s : string) : option (string * string) :=
  match s with
  | EmptyString => None
  | String c rest =>
      if Ascii.eqb c dquote then Some (EmptyString, rest)
      else if Ascii.eqb c backslash then
        match rest with
        | EmptyString => None
        | String e rest1 =>
            if Ascii.eqb e "u" then
              match rest1 with
              | String h1 (String h2 (String h3 (String h4 rest2))) =>
                  match hex4 h1 h2 h3 h4 with
                  | Some n =>
                      if (n <? 256)%N then cons_fst (ascii_of_N n) (read_string rest2)
                      else None
                  | None => None
                  end
              | _ => None
              end
            else
              match unescape_char e with
              | Some c' => cons_fst c' (read_string rest1)
              | None => None
              end
        end
      else if (N_of_ascii c <? 32)%N then None
      else cons_fst c (read_string rest)
  end.

Definition read_quoted (s : string) : option (string * string) :=
  match s with
  | String c rest => if Ascii.eqb c dquote then read_string rest else None
  | EmptyString => None
  end.

(** [s] without its prefix [p]. *)
Fixpoint strip (p s : string) : option string :=
  match p, s with
  | EmptyString, _ => Some s
  | String a p', String b s' => if Ascii.eqb a b then strip p' s' else None
  | String _ _, EmptyString => None
  end.

Definition read_member (s : string) : option ((string * string) * string) :=
  match read_quoted s with
  | Some (k, r1) =>
      match strip ": " r1 with
      | Some r2 =>
          match read_quoted r2 with
          | Some (v, r3) => Some ((k, v), r3)
          | None => None
          end
      | None => None
      end
  | None => None
  end.

Fixpoint read_members (fuel : nat) (s : string) : option (list (string * string)) :=
  match fuel with
  | O => None
  | Datatypes.S fuel' =>
      match read_member s with
      | Some (kv, r) =>
          if String.eqb r "}" then Some [kv]
          else match strip ", " r with
               | Some r' => cons kv <$> read_members fuel' r'
               | None => None
               end
      | None => None
      end
  end.

(** The members of the object [s] encodes, in order. *)
Definition loads (s : string) : option (list (string * string)) :=
  match s with
  | String c rest =>
      if Ascii.eqb c "{" then
        if String.eqb rest "}" then Some []
        else read_members (String.length rest) rest
      else None
  | EmptyString => None
  end.

End Json.

(** ** The store interface consumed by the handler

    The request and response of [update_item] as boto3 documents them: an
    attribute value is a one-entry dict tagged by its type, a number
    travels as a string. *)

Module Store.

Inductive AttributeValue : Type :=
| AttrS (s : string)
| AttrN (n : string)
| AttrBOOL (b : bool)
| AttrNULL.

#[global] Instance AttributeValue_eq_dec : EqDecision AttributeValue.
Proof. solve_decision. Defined.

(** [av["N"]] on the tagged dict: only a number has the entry. *)
Definition getitem_N (av : AttributeValue) : exn + string :=
  match av with
  | AttrN n => inr n
  | _ => inl (KeyError "N")
  end.

Record UpdateItemInput : Type := {
  TableName : string;
  Key : gmap string AttributeValue;
  UpdateExpression : string;
  ExpressionAttributeNames : gmap string string;
  ExpressionAttributeValues : gmap string AttributeValue;
  ReturnValues : string
}.

(** The response dict; the [Attributes] entry is optional. *)
Record UpdateItemOutput : Type := {
  Attributes : option (gmap string AttributeValue)
}.

(** [response["Attributes"]] *)
Definition getitem_Attributes (response : UpdateItemOutput)
  : exn + gmap string AttributeValue :=
  match Attributes response with
  | Some attrs => inr attrs
  | None => inl (KeyError "Attributes")
  end.

(** A client over a store state [S]: one call either raises or returns a
    response, and leaves the store in a new state. *)
Class Client (S : Type) : Type :=
  update_item : UpdateItemInput → S → S * (exn + UpdateItemOutput).

End Store.
Export Store.

(** ** The world and the monad of the handler body *)

Record World (S : Type) : Type := {
  store : S;
  stdout : list string
}.
Arguments store {S} _.
Arguments stdout {S} _.
Arguments Build_World {S} _ _.

Record LambdaResult : Type := {
  statusCode : Z;
  body : string
}.

Section Monad.
Context {S : Type}.

Definition M (A : Type) : Type := World S → World S * (exn + A).

Definition ret {A} (a : A) : M A := λ w, (w, inr a).

Definition raise {A} (e : exn) : M A := λ w, (w, inl e).

Definition bind {A B} (m : M A) (k : A → M B) : M B :=
  λ w, match m w with
       | (w', inr a) => k a w'
       | (w', inl e) => (w', inl e)
       end.

(** A Python expression that may raise. *)
Definition eval {A} (r : exn + A) : M A := λ w, (w, r).

Definition print (line : string) : M unit :=
  λ w, ({| store := store w; stdout := stdout w ++ [line] |}, inr tt).

(** The call through the client touches the store only. *)
Definition call `{!Client S} (req : UpdateItemInput) : M UpdateItemOutput :=
  λ w, let '(s', r) := update_item req (store w) in
       ({| store := s'; stdout := stdout w |}, r).

(** [try: body  except Exception as e: on_error(e)], with a clause
    [on_error] that cannot raise: the statement always yields a value. *)
Definition try_except {A} (body : M A) (on_error : exn → World S → World S * A)
  : World S → World S * A :=
  λ w, match body w with
       | (w', inr a) => (w', a)
       | (w', inl e) => on_error e w'
       end.

#[export] Instance M_ret : MRet M := @ret.
#[export] Instance M_bind : MBind M := λ A B k m, bind m k.
End Monad.

(** ** The handler *)

Section Handler.
Context {S : Type} `{dynamodb : !Client S}.
Variable table_name : string.

Definition request (visit_id : string) : UpdateItemInput := {|
  TableName := table_name;
  Key := {[ "id" := AttrS visit_id ]};
  UpdateExpression := "ADD #count :inc";
  ExpressionAttributeNames := {[ "#count" := "count" ]};
  ExpressionAttributeValues := {[ ":inc" := AttrN "1" ]};
  ReturnValues := "UPDATED_NEW"
|}.

Definition handler_body (event : pyval) : M (S:=S) LambdaResult :=
  s3_event ← eval (get event "detail" (PDict ∅));
  rp1 ← eval (get s3_event "requestParameters" (PDict ∅));
  bucket_name ← eval (get rp1 "bucketName" PNone);
  rp2 ← eval (get s3_event "requestParameters" (PDict ∅));
  object_key ← eval (get rp2 "key" PNone);
  if negb (truthy bucket_name) || negb (truthy object_key)
  then raise (ValueError "Invalid event format")
  else
    let visit_id := "visit_count" in
    response ← call (request visit_id);
    attributes ← eval (getitem_Attributes response);
    count ← eval (getitem attributes "count");
    new_count ← eval (getitem_N count);
    print ("Updated visit count: " ++ new_count);;
    print "made few changes using the github actions";;
    mret {| statusCode := 200;
            body := Json.dumps [("message", "Visit count updated successfully");
                                ("count", new_count)] |}.

(** The [except Exception as e] clause. *)
Definition on_exception (e : exn) (w : World S) : World S * LambdaResult :=
  ({| store := store w; stdout := stdout w ++ ["Error: " ++ str e] |},
   {| statusCode := 500;
      body := Json.dumps [("message", "Error updating visit count");
                          ("error", str e)] |}).

Definition handler (event context : pyval) : World S → World S * LambdaResult :=
  try_except (handler_body event) on_exception.
End Handler.

(** ** The body cut at the store call

    The same lines as [handler_body], in the two parts that surround the
    call; [handler_body_parts] below shows they compose to it. *)

Section Parts.
Context {S : Type}.
Variable table_name : string.

(** Lines 11-18 of the body: extraction and validation. *)
Definition before_call (event : pyval) : M (S:=S) UpdateItemInput :=
  s3_event ← eval (get event "detail" (PDict ∅));
  rp1 ← eval (get s3_event "requestParameters" (PDict ∅));
  bucket_name ← eval (get rp1 "bucketName" PNone);
  rp2 ← eval (get s3_event "requestParameters" (PDict ∅));
  object_key ← eval (get rp2 "key" PNone);
  if negb (truthy bucket_name) || negb (truthy object_key)
  then raise (ValueError "Invalid event format")
  else mret (request table_name "visit_count").

(** Lines 30-39 of the body: reading the response and answering. *)
Definition after_call (response : UpdateItemOutput) : M (S:=S) LambdaResult :=
  attributes ← eval (getitem_Attributes response);
  count ← eval (getitem attributes "count");
  new_count ← eval (getitem_N count);
  print ("Updated visit count: " ++ new_count);;
  print "made few changes using the github actions";;
  mret {| statusCode := 200;
          body := Json.dumps [("message", "Visit count updated successfully");
                              ("count", new_count)] |}.
End Parts.

(** The values lines 11-13 bind, or the exception they raise. *)
Definition leaves (event : pyval) : exn + (pyval * pyval) :=
  match get event "detail" (PDict ∅) with
  | inl e => inl e
  | inr s3_event =>
      match get s3_event "requestParameters" (PDict ∅) with
      | inl e => inl e
      | inr rp =>
          match get rp "bucketName" PNone, get rp "key" PNone with
          | inr bucket_name, inr object_key => inr (bucket_name, object_key)
          | inl e, _ | _, inl e => inl e
          end
      end
  end.

(** What the body has decided when it reaches the store: the request to
    send, or the exception raised before. *)
Definition checked (table_name : string) (event : pyval) : exn + UpdateItemInput :=
  match leaves event with
  | inl e => inl e
  | inr (bucket_name, object_key) =>
      if negb (truthy bucket_name) || negb (truthy object_key)
      then inl (ValueError "Invalid event format")
      else inr (request table_name "visit_count")
  end.

(** The two answers, by their variable part. *)
Definition success_result (new_count : string) : LambdaResult :=
  {| statusCode := 200;
     body := Json.dumps [("message", "Visit count updated successfully");
                         ("count", new_count)] |}.

Definition error_result (text : string) : LambdaResult :=
  {| statusCode := 500;
     body := Json.dumps [("message", "Error updating visit count");
                         ("error", text)] |}.

Definition invalid_event_result : LambdaResult := error_result "Invalid event format".

(** ** A DynamoDB-like store behind the client

    The store is an external service: [index.py] holds only the call.
    The instance below gives the behaviour the specification relies on
    (an atomic add on a numeric attribute that returns the new value and
    creates the record on first use), in the terms of the [UpdateItem]
    request: one [ADD] action on an attribute of the item under partition
    key [id], applied in one indivisible step.  A call may also fail for
    reasons outside the request (unavailable, throttled, denied): the
    [fault] argument decides that from outside. *)

Module DynamoDB.

(** A stored attribute; numbers are kept as integers. *)
Inductive value : Type :=
| VS (s : string)
| VN (n : Z)
| VBOOL (b : bool)
| VNULL.

#[global] Instance value_eq_dec : EqDecision value.
Proof. solve_decision. Defined.

(** Items of a table by the string under [id], each with its other
    attributes; tables by name. *)
Abbreviation item := (gmap string value).
Abbreviation table := (gmap string (gmap string value)).
Abbreviation database := (gmap string (gmap string (gmap string value))).

Definition digit_of (c : ascii) : option Z :=
  let n := N_of_ascii c in
  if ((48 <=? n) && (n <=? 57))%N then Some (Z.of_N (n - 48)) else None.

Fixpoint parse_digits (acc : Z) (s : string) : option Z :=
  match s with
  | EmptyString => Some acc
  | String c rest =>
      match digit_of c with
      | Some d => parse_digits (10 * acc + d) rest
      | None => None
      end
  end.

(** The integer a number string denotes, if it is one. *)
Definition parse_number (s : string) : option Z :=
  match s with
  | EmptyString => None
  | String "-" EmptyString => None
  | String "-" rest => Z.opp <$> parse_digits 0 rest
  | _ => parse_digits 0 s
  end.

Definition to_wire (v : value) : AttributeValue :=
  match v with
  | VS s => AttrS s
  | VN n => AttrN (pretty n)
  | VBOOL b => AttrBOOL b
  | VNULL => AttrNULL
  end.

Definition of_wire (av : AttributeValue) : option value :=
  match av with
  | AttrS s => Some (VS s)
  | AttrN n => VN <$> parse_number n
  | AttrBOOL b => Some (VBOOL b)
  | AttrNULL => Some VNULL
  end.

(** The words of an expression, split at spaces. *)
Fixpoint words (s : string) : list string :=
  match s with
  | EmptyString => [EmptyString]
  | String c rest =>
      if Ascii.eqb c " " then EmptyString :: words rest
      else match words rest with
           | w :: ws => String c w :: ws
           | [] => [String c EmptyString]
           end
  end.

Definition tokens (s : string) : list string :=
  List.filter (λ w, negb (String.eqb w EmptyString)) (words s).

(** [ADD path value], the one action understood here. *)
Definition parse_update_expression (e : string) : option (string * string) :=
  match tokens e with
  | [action; path; ref] =>
      if String.eqb action "ADD" then Some (path, ref) else None
  | _ => None
  end.

(** A [#name] placeholder goes through [ExpressionAttributeNames]. *)
Definition resolve_name (names : gmap string string) (path : string) : option string :=
  match path with
  | String "#" _ => names !! path
  | _ => Some path
  end.

Definition validation (msg : string) : string :=
  "An error occurred (ValidationException) when calling the UpdateItem operation: " ++ msg.

Definition not_found : string :=
  "An error occurred (ResourceNotFoundException) when calling the UpdateItem operation: Requested resource not found".

Definition returned (mode attr : string) (old : item) (new : Z)
  : string + option (gmap string AttributeValue) :=
  if String.eqb mode "NONE" then inr None
  else if String.eqb mode "UPDATED_NEW" then inr (Some {[ attr := to_wire (VN new) ]})
  else if String.eqb mode "ALL_NEW" then inr (Some (to_wire <$> <[attr := VN new]> old))
  else if String.eqb mode "UPDATED_OLD" then
    inr (match old !! attr with
         | Some v => Some {[ attr := to_wire v ]}
         | None => None
         end)
  else if String.eqb mode "ALL_OLD" then
    inr (if decide (old = ∅) then None else Some (to_wire <$> old))
  else inl (validation "ReturnValues is not one of the accepted values").

(** Modelled from the spec: the store's atomic add, which is not in
    [index.py].  The request applied to the store, or the text of the
    error. *)
Definition apply_update (req : UpdateItemInput) (db : database)
  : string + (database * UpdateItemOutput) :=
  match db !! TableName req with
  | None => inl not_found
  | Some tbl =>
    match Key req !! "id", size (Key req) with
    | Some (AttrS k), 1%nat =>
      match parse_update_expression (UpdateExpression req) with
      | None => inl (validation "Invalid UpdateExpression")
      | Some (path, ref) =>
        match resolve_name (ExpressionAttributeNames req) path with
        | None => inl (validation "An expression attribute name used in the document path is not defined")
        | Some attr =>
          if String.eqb attr "id"
          then inl (validation "Cannot update attribute id. This attribute is part of the key")
          else
          match ExpressionAttributeValues req !! ref ≫= of_wire with
          | Some (VN inc) =>
            let old := default ∅ (tbl !! k) in
            match old !! attr with
            | Some (VS _) | Some (VBOOL _) | Some VNULL =>
                inl (validation "An operand in the update expression has an incorrect data type")
            | current =>
              let new := match current with Some (VN c) => c + inc | _ => inc end in
              match returned (ReturnValues req) attr old new with
              | inl msg => inl msg
              | inr attrs =>
                  inr (<[TableName req := <[k := <[attr := VN new]> old]> tbl]> db,
                       {| Attributes := attrs |})
              end
            end
          | _ => inl (validation "An expression attribute value used in expression is not a number")
          end
        end
      end
    | _, _ => inl (validation "The provided key element does not match the schema")
    end
  end.

(** Modelled from the spec: the store client, which is not in
    [index.py].  A call that fails raises and writes nothing. *)
Definition client (fault : option string) : Client database :=
  λ req db,
    match fault with
    | Some msg => (db, inl (ClientError msg))
    | None =>
        match apply_update req db with
        | inl msg => (db, inl (ClientError msg))
        | inr (db', out) => (db', inr out)
        end
    end.

(** One attribute of one item of one table. *)
Definition attr_of (db : database) (tbl key attr : string) : option value :=
  match db !! tbl with
  | Some t =>
      match t !! key with
      | Some i => i !! attr
      | None => None
      end
  | None => None
  end.

(** The count the store holds for the counter record; an item or an
    attribute that is not there yet counts as 0, as [ADD] takes it. *)
Definition count_of (db : database) (tbl : string) : option Z :=
  match db !! tbl with
  | None => None
  | Some _ =>
      match attr_of db tbl "visit_count" "count" with
      | None => Some 0
      | Some (VN n) => Some n
      | Some _ => None
      end
  end.

(** The store after one successful increment of the counter record. *)
Definition incremented (db : database) (tbl : string) : database :=
  match db !! tbl with
  | Some t =>
      let old := default ∅ (t !! "visit_count") in
      let new := match old !! "count" with Some (VN c) => c + 1 | _ => 1 end in
      <[tbl := <["visit_count" := <["count" := VN new]> old]> t]> db
  | None => db
  end.

(** The response that reports the count [n]. *)
Definition counted (n : Z) : UpdateItemOutput :=
  {| Attributes := Some {[ "count" := AttrN (pretty n) ]} |}.

(** What the store shows of the counter: nothing when the table is not
    there, else the [count] attribute of the counter record, if any. *)
Definition counter_view (db : database) (tbl : string) : option (option value) :=
  match db !! tbl with
  | None => None
  | Some _ => Some (attr_of db tbl "visit_count" "count")
  end.

End DynamoDB.

(** ** Reading an event against the trigger shape

    [{detail: {requestParameters: {bucketName, key}}}]: what an event
    carries at a path, independently of how the handler gets there. *)

Module Event.

(** The value found by following [path] through nested mappings; nothing
    when a key on the way is not there or its parent is not a mapping. *)
Fixpoint lookup_path (path : list string) (v : pyval) : option pyval :=
  match path with
  | [] => Some v
  | key :: rest =>
      match v with
      | PDict d =>
          match d !! key with
          | Some child => lookup_path rest child
          | None => None
          end
      | _ => None
      end
  end.

(** The leaf [detail.requestParameters.name]. *)
Definition field (name : string) (ev : pyval) : option pyval :=
  lookup_path ["detail"; "requestParameters"; name] ev.

(** A leaf that is not there, or is the empty string. *)
Definition missing_or_empty (o : option pyval) : Prop :=
  o = None ∨ o = Some (PStr EmptyString).

(** A leaf that is a non-empty string. *)
Definition nonempty_string (o : option pyval) : Prop :=
  ∃ s, o = Some (PStr s) ∧ s ≠ EmptyString.

(** A valid event carries both leaves as non-empty strings. *)
Definition valid (ev : pyval) : Prop :=
  nonempty_string (field "bucketName" ev) ∧ nonempty_string (field "key" ev).

Definition mapping_if_present (o : option pyval) : bool :=
  match o with
  | None => true
  | Some (PDict _) => true
  | Some _ => false
  end.

(** The event is a mapping, and so are [detail] and
    [detail.requestParameters] wherever they are present. *)
Definition well_shaped (ev : pyval) : bool :=
  mapping_if_present (lookup_path [] ev)
  && mapping_if_present (lookup_path ["detail"] ev)
  && mapping_if_present (lookup_path ["detail"; "requestParameters"] ev).

(** Two events agree on the two leaves the handler is said to read. *)
Definition agree (ev1 ev2 : pyval) : Prop :=
  field "bucketName" ev1 = field "bucketName" ev2 ∧ field "key" ev1 = field "key" ev2.

End Event.

(** ** Observing the calls to the store

    A client wrapped so that the store state also keeps the requests it
    was sent, in order. *)

Section Recording.
Context {S : Type} `{inner : !Client S}.

Definition recording : Client (S * list UpdateItemInput) :=
  λ req st,
    let '(s', r) := update_item (Client := inner) req st.1 in
    ((s', (st.2 ++ [req])%list), r).

Definition observe (w : World S) : World (S * list UpdateItemInput) :=
  {| store := (store w, []); stdout := stdout w |}.

(** The requests one invocation sends. *)
Definition requests_issued (table_name : string) (event context : pyval) (w : World S)
  : list UpdateItemInput :=
  (store (handler (dynamodb := recording) table_name event context (observe w)).1).2.
End Recording.

Section Outcome.
Context {S : Type} `{dynamodb : !Client S}.
Variable table_name : string.

(** The invocation answers [r], has sent nothing to the store and has left
    it as it was. *)
Definition answers_without_store (event context : pyval) (w : World S)
    (r : LambdaResult) : Prop :=
  (handler table_name event context w).2 = r
  ∧ store (handler table_name event context w).1 = store w
  ∧ requests_issued table_name event context w = [].
End Outcome.

(** ** Invocations in sequence *)

Section Sequence.
Context {S : Type} `{dynamodb : !Client S}.
Variable table_name : string.

(** The handler run on each event in turn, over the same store; the
    results come back in order. *)
Fixpoint invoke_all (events : list pyval) (context : pyval) (w : World S)
  : World S * list LambdaResult :=
  match events with
  | [] => (w, [])
  | event :: rest =>
      let '(w1, r) := handler table_name event context w in
      let '(w2, rs) := invoke_all rest context w1 in
      (w2, r :: rs)
  end.
End Sequence.

(** ** Invocations running concurrently

    The host may run any number of handler instances at once.  An
    invocation is cut where it meets the shared store: the part of the body
    before the call, the call itself (one indivisible step of the store),
    and the part after it.  A step of the system advances one invocation
    by one part; every order of steps is an interleaving. *)

Module Concurrent.

Section Interleaving.
Context {S : Type} `{dynamodb : !Client S}.
Variable table_name : string.

Inductive phase : Type :=
| Start (event context : pyval)
| Calling (req : UpdateItemInput)
| Called (response : UpdateItemOutput)
| Finished (r : LambdaResult).

(** An invocation in flight, with the lines it has printed. *)
Record invocation : Type := {
  at_phase : phase;
  printed : list string
}.

Definition is_finished (inv : invocation) : bool :=
  match at_phase inv with
  | Finished _ => true
  | _ => false
  end.

(** Where a part of the body leaves the invocation: at the next phase,
    or in the [except] clause, which finishes it. *)
Definition settle {A : Type} (next : A → phase) (run : World S * (exn + A))
  : invocation * S :=
  match run with
  | (w, inr a) => ({| at_phase := next a; printed := stdout w |}, store w)
  | (w, inl e) =>
      let '(w', r) := on_exception e w in
      ({| at_phase := Finished r; printed := stdout w' |}, store w')
  end.

(** One part of one invocation, run against the store as it stands. *)
Definition advance (inv : invocation) (s : S) : invocation * S :=
  let w := {| store := s; stdout := printed inv |} in
  match at_phase inv with
  | Start event context => settle Calling (before_call table_name event w)
  | Calling req => settle Called (call req w)
  | Called response => settle Finished (after_call response w)
  | Finished r => (inv, s)
  end.

(** A system: the shared store and the invocations in flight. *)
Inductive step : S * list invocation → S * list invocation → Prop :=
| step_advance (i : nat) (s : S) (invs : list invocation) (inv : invocation) :
    invs !! i = Some inv →
    is_finished inv = false →
    step (s, invs) ((advance inv s).2, <[i := (advance inv s).1]> invs).

Definition all_finished (invs : list invocation) : Prop :=
  Forall (λ inv, is_finished inv = true) invs.

Definition start_all (events : list pyval) (context : pyval) : list invocation :=
  (λ event, {| at_phase := Start event context; printed := [] |}) <$> events.
End Interleaving.

(** How many parts an invocation still has to run. *)
Definition remaining (inv : invocation) : nat :=
  match at_phase inv with
  | Start _ _ => 3
  | Calling _ => 2
  | Called _ => 1
  | Finished _ => 0
  end.

(** Whether the invocation is past its store call. *)
Definition passed (inv : invocation) : nat :=
  match at_phase inv with
  | Start _ _ | Calling _ => 0
  | Called _ | Finished _ => 1
  end.

(** The store calls made so far. *)
Fixpoint applied (invs : list invocation) : nat :=
  match invs with
  | [] => 0
  | inv :: rest => passed inv + applied rest
  end.

(** The phases a valid invocation goes through on a store that serves it. *)
Definition on_track (table_name : string) (inv : invocation) : Prop :=
  match at_phase inv with
  | Start event _ => Event.valid event
  | Calling req => req = request table_name "visit_count"
  | Called response => ∃ n, response = DynamoDB.counted n
  | Finished r => ∃ n, r = success_result n
  end.

(** What every interleaving keeps true: each invocation is on track, and
    the store holds the initial count [c] plus one per store call made. *)
Definition counts_for (table_name : string) (c : Z) (n : nat)
    (cfg : DynamoDB.database * list invocation) : Prop :=
  Forall (on_track table_name) cfg.2
  ∧ length cfg.2 = n
  ∧ DynamoDB.count_of cfg.1 table_name = Some (c + Z.of_nat (applied cfg.2)).

(** The scheduler as a function: the invocation named at each turn runs
    one part; a turn naming a finished or unknown invocation is idle. *)
Fixpoint run_schedule {S : Type} `{dynamodb : !Client S} (table_name : string)
    (schedule : list nat) (cfg : S * list invocation) : S * list invocation :=
  match schedule with
  | [] => cfg
  | i :: rest =>
      run_schedule table_name rest
        match cfg.2 !! i with
        | Some inv =>
            if is_finished inv then cfg
            else ((advance table_name inv cfg.1).2,
                  <[i := (advance table_name inv cfg.1).1]> cfg.2)
        | None => cfg
        end
  end.

End Concurrent.

(** ** Sample inputs *)

Module Scenario.
Import DynamoDB.

(** [{detail: {requestParameters: {bucketName: b, key: k}}}] *)
Definition event : pyval :=
  PDict {[ "detail" := PDict {[ "requestParameters" :=
            PDict {[ "bucketName" := PStr "b"; "key" := PStr "k" ]} ]} ]}.

(** The same two leaves among other content. *)
Definition noisy_event : pyval :=
  PDict {[ "version" := PStr "0"; "source" := PStr "aws.s3";
           "detail" := PDict {[ "eventName" := PStr "PutObject";
              "requestParameters" :=
                PDict {[ "bucketName" := PStr "b"; "key" := PStr "k";
                         "Host" := PStr "b.s3.amazonaws.com" ]} ]} ]}.

(** [{detail: {requestParameters: {}}}] *)
Definition no_parameters : pyval :=
  PDict {[ "detail" := PDict {[ "requestParameters" := PDict ∅ ]} ]}.

(** [{detail: null}] *)
Definition null_detail : pyval := PDict {[ "detail" := PNone ]}.

(** [{detail: {requestParameters: null}}] *)
Definition null_parameters : pyval :=
  PDict {[ "detail" := PDict {[ "requestParameters" := PNone ]} ]}.

(** A table with the counter at 0. *)
Definition visits : database :=
  {[ "visits" := {[ "visit_count" := {[ "count" := VN 0 ]} ]} ]}.

(** The counter at 41 among other attributes, items and tables. *)
Definition busy : database :=
  {[ "visits" := {[ "visit_count" := {[ "count" := VN 41; "owner" := VS "ops" ]};
                    "other" := {[ "count" := VN 7 ]} ]};
     "audit" := {[ "row" := {[ "seen" := VBOOL true ]} ]} ]}.

(** The counter at 41 and nothing else. *)
Definition bare : database :=
  {[ "visits" := {[ "visit_count" := {[ "count" := VN 41 ]} ]} ]}.

Definition world : World database := {| store := visits; stdout := [] |}.

End Scenario.

(** ** The rest of the module and of the handler's behaviour *)

Module Load.



End Load.

Module Text.

(** The printable ASCII characters, space to tilde. *)
Definition printable (c : ascii) : bool :=
  ((32 <=? N_of_ascii c) && (N_of_ascii c <=? 126))%N.

Fixpoint all_printable (s : string) : bool :=
  match s with
  | EmptyString => true
  | String c rest => printable c && all_printable rest
  end.

End Text.

(** Whether the body gets past line 16, to the store call. *)
Definition accepts (event : pyval) : bool :=
  match leaves event with
  | inr (bucket_name, object_key) => truthy bucket_name && truthy object_key
  | inl _ => false
  end.

(** The status answered on a store that serves every call. *)
Definition served_status (event : pyval) : Z := if accepts event then 200 else 500.

(** Line 30, [response["Attributes"]["count"]["N"]]: the count read off
    the response, or the exception of the first subscript that fails. *)
Definition response_count (response : UpdateItemOutput) : exn + string :=
  match getitem_Attributes response with
  | inl e => inl e
  | inr attributes =>
      match getitem attributes "count" with
      | inl e => inl e
      | inr count => getitem_N count
      end
  end.

(** The first entry of [response["Attributes"]["count"]["N"]] that is
    not there, if any. *)
Definition missing_entry (response : UpdateItemOutput) : option string :=
  match Attributes response with
  | None => Some "Attributes"
  | Some attributes =>
      match attributes !! "count" with
      | None => Some "count"
      | Some (AttrN _) => None
      | Some _ => Some "N"
      end
  end.

Module Tickets.
Import DynamoDB Concurrent.

(** The count an invocation has been given by the store: none before its
    call, the one reported after. *)
Definition holds (table_name : string) (inv : invocation) (n : option Z) : Prop :=
  match at_phase inv, n with
  | Start event _, None => Event.valid event
  | Calling req, None => req = request table_name "visit_count"
  | Called response, Some m => response = counted m
  | Finished r, Some m => r = success_result (pretty m)
  | _, _ => False
  end.

(** What every interleaving keeps true of the counts given out: they are
    distinct, lie above the initial count [c], and the store holds [c] plus
    their number. *)
Definition tickets_for (table_name : string) (c : Z)
    (cfg : database * list invocation) : Prop :=
  ∃ ns : list (option Z),
    Forall2 (holds table_name) cfg.2 ns
    ∧ NoDup (omap id ns)
    ∧ Forall (λ m, c < m ≤ c + Z.of_nat (length (omap id ns))) (omap id ns)
    ∧ count_of cfg.1 table_name = Some (c + Z.of_nat (length (omap id ns))).

End Tickets.

(** More sample inputs. *)
Module Odd.

(** [{detail: {requestParameters: {bucketName: 0, key: "k"}}}] *)
Definition zero_bucket : pyval :=
  PDict {[ "detail" := PDict {[ "requestParameters" :=
            PDict {[ "bucketName" := PInt 0; "key" := PStr "k" ]} ]} ]}.

(** [{detail: {requestParameters: {bucketName: 5, key: [null]}}}] *)
Definition untyped_leaves : pyval :=
  PDict {[ "detail" := PDict {[ "requestParameters" :=
            PDict {[ "bucketName" := PInt 5; "key" := PList [PNone] ]} ]} ]}.


(** A store that performs the update and returns no attributes. *)
Definition silent : Client Z := λ _ n, (n + 1, inr {| Attributes := None |}).

(** A store that reports a count that is no integer, next to another
    attribute. *)
Definition chatty : Client Z :=
  λ _ n, (n + 1, inr {| Attributes :=
                          Some {[ "count" := AttrN "1.50"; "owner" := AttrS "ops" ]} |}).

End Odd.

(** * Properties *)

(** ** The encoder and the decoder *)

Module JsonFacts.
Import Json.

#[local] Arguments String.append !_ _ / : simpl nomatch.

Lemma append_assoc (a b c : string) : (a ++ b) ++ c = a ++ (b ++ c).
Proof. induction a as [|x a IH]; cbn [String.append]; [reflexivity | now f_equal]. Qed.

Lemma length_append (a b : string) :
  String.length (a ++ b) = (String.length a + String.length b)%nat.
Proof. induction a as [|x a IH]; simpl; [reflexivity | now f_equal]. Qed.

(** Every character comes back from its escape. *)
Lemma read_string_escape_char (c : ascii) (tail : string) :
  read_string (escape_char c ++ tail) = cons_fst c (read_string tail).
Proof.
  destruct c as [b0 b1 b2 b3 b4 b5 b6 b7].
  destruct b0, b1, b2, b3, b4, b5, b6, b7; reflexivity.
Qed.

Lemma read_string_escape (s tail : string) :
  read_string (escape s ++ String dquote tail) = Some (s, tail).
Proof.
  induction s as [|c s IH].
  - reflexivity.
  - cbn [escape]. rewrite append_assoc, read_string_escape_char, IH. reflexivity.
Qed.

Lemma read_quoted_quote (s tail : string) :
  read_quoted (quote s ++ tail) = Some (s, tail).
Proof.
  unfold quote. cbn [String.append read_quoted].
  replace (Ascii.eqb dquote dquote) with true by reflexivity.
  rewrite append_assoc. apply read_string_escape.
Qed.

Lemma read_member_member (kv : string * string) (tail : string) :
  read_member (member kv ++ tail) = Some (kv, tail).
Proof.
  destruct kv as [k v]. unfold read_member, member. cbn [fst snd].
  rewrite append_assoc, read_quoted_quote.
  rewrite append_assoc. cbn [String.append strip].
  replace (Ascii.eqb ":" ":") with true by reflexivity.
  replace (Ascii.eqb " " " ") with true by reflexivity.
  now rewrite read_quoted_quote.
Qed.

Lemma read_members_members (o : list (string * string)) :
  o ≠ [] → ∀ fuel, (length o ≤ fuel)%nat →
  read_members fuel (members o ++ "}") = Some o.
Proof.
  induction o as [|kv o IH]; [congruence|]. intros _ fuel Hfuel.
  destruct fuel as [|fuel]; [simpl in Hfuel; lia|].
  destruct o as [|kv' o].
  - cbn [members read_members]. now rewrite read_member_member.
  - change (members (kv :: kv' :: o)) with (member kv ++ ", " ++ members (kv' :: o)).
    cbn [read_members]. rewrite append_assoc, read_member_member.
    cbn [String.append String.eqb strip Ascii.eqb Bool.eqb].
    rewrite IH; [reflexivity | congruence | simpl in *; lia].
Qed.

Lemma member_length (kv : string * string) : (1 ≤ String.length (member kv))%nat.
Proof. unfold member, quote. simpl. lia. Qed.

Lemma members_length (o : list (string * string)) :
  (length o ≤ String.length (members o))%nat.
Proof.
  induction o as [|kv o IH]; [simpl; lia|].
  destruct o as [|kv' o].
  - pose proof (member_length kv). simpl in *. lia.
  - change (members (kv :: kv' :: o)) with (member kv ++ ", " ++ members (kv' :: o)).
    rewrite !length_append. pose proof (member_length kv). simpl in *. lia.
Qed.

(** What [dumps] writes, [loads] reads back. *)
Lemma loads_dumps (o : list (string * string)) : loads (dumps o) = Some o.
Proof.
  unfold dumps, loads. cbn [String.append].
  replace (Ascii.eqb "{" "{") with true by reflexivity.
  destruct o as [|kv o]; [reflexivity|].
  assert (Hne : String.eqb (members (kv :: o) ++ "}") "}" = false).
  { destruct o; destruct kv; reflexivity. }
  rewrite Hne. apply read_members_members; [congruence|].
  rewrite length_append. pose proof (members_length (kv :: o)). lia.
Qed.

(** So the encoding determines the object. *)
Lemma dumps_inj (o1 o2 : list (string * string)) : dumps o1 = dumps o2 → o1 = o2.
Proof.
  intros H. apply (f_equal loads) in H. rewrite !loads_dumps in H. congruence.
Qed.

End JsonFacts.

(** ** The handler, part by part *)

Ltac unfold_monad :=
  unfold mbind, M_bind, bind, mret, M_ret, ret, eval, raise, print, call, try_except in *.

Section BodyFacts.
Context {S : Type} `{dynamodb : !Client S}.
Variable table_name : string.

(** The first part decides without touching the world. *)
Lemma before_call_checked (event : pyval) (w : World S) :
  before_call table_name event w = (w, checked table_name event).
Proof.
  unfold before_call, checked, leaves. unfold_monad.
  destruct (get event "detail" (PDict ∅)) as [e|s3_event]; [reflexivity|].
  destruct (get s3_event "requestParameters" (PDict ∅)) as [e|rp]; [reflexivity|].
  destruct (get rp "bucketName" PNone) as [e|bucket_name];
    destruct (get rp "key" PNone) as [e'|object_key]; try reflexivity.
  destruct (negb _ || negb _); reflexivity.
Qed.

(** The body is its first part, the call, and its last part. *)
Lemma handler_body_parts (event : pyval) (w : World S) :
  handler_body table_name event w =
  (req ← before_call table_name event; response ← call req; after_call response) w.
Proof.
  unfold handler_body, before_call, after_call. unfold_monad.
  destruct (get event "detail" (PDict ∅)) as [e|s3_event]; [reflexivity|].
  destruct (get s3_event "requestParameters" (PDict ∅)) as [e|rp]; [reflexivity|].
  destruct (get rp "bucketName" PNone) as [e|bucket_name]; [reflexivity|].
  destruct (get rp "key" PNone) as [e'|object_key]; [reflexivity|].
  destruct (negb _ || negb _); reflexivity.
Qed.

Lemma handler_checked (event context : pyval) (w : World S) :
  handler table_name event context w =
  match checked table_name event with
  | inl e => on_exception e w
  | inr req =>
      let '(s', r) := update_item req (store w) in
      let w' := {| store := s'; stdout := stdout w |} in
      match r with
      | inl e => on_exception e w'
      | inr response => try_except (after_call response) on_exception w'
      end
  end.
Proof.
  unfold handler, try_except at 1. rewrite handler_body_parts.
  unfold mbind at 1, M_bind at 1, bind at 1. rewrite before_call_checked.
  destruct (checked table_name event) as [e|req]; [reflexivity|].
  unfold mbind at 1, M_bind at 1, bind at 1, call.
  destruct (update_item req (store w)) as [s' [e|response]]; [reflexivity|].
  unfold try_except. reflexivity.
Qed.

(** The only request the body ever decides on. *)
Lemma checked_request (event : pyval) (req : UpdateItemInput) :
  checked table_name event = inr req → req = request table_name "visit_count".
Proof.
  unfold checked. destruct (leaves event) as [|[b k]]; [discriminate|].
  destruct (negb _ || negb _); congruence.
Qed.

Lemma after_call_returns (n : Z) (w : World S) :
  after_call (DynamoDB.counted n) w
  = ({| store := store w;
        stdout := (stdout w ++ ["Updated visit count: " ++ pretty n])
                  ++ ["made few changes using the github actions"] |},
     inr (success_result (pretty n))).
Proof.
  unfold after_call, DynamoDB.counted. unfold_monad.
  cbn [getitem_Attributes Attributes]. unfold getitem.
  rewrite lookup_singleton_eq. reflexivity.
Qed.

Lemma after_call_counted (n : Z) (w : World S) :
  try_except (after_call (DynamoDB.counted n)) on_exception w
  = ({| store := store w;
        stdout := (stdout w ++ ["Updated visit count: " ++ pretty n])
                  ++ ["made few changes using the github actions"] |},
     success_result (pretty n)).
Proof. unfold try_except. now rewrite after_call_returns. Qed.

(** The last part leaves the store alone, and ends on one of the two
    answers. *)
Lemma after_call_outcome (response : UpdateItemOutput) (w : World S) :
  ∃ out r, try_except (after_call response) on_exception w
           = ({| store := store w; stdout := out |}, r)
    ∧ ((∃ n, r = success_result n) ∨ (∃ e, r = error_result (str e))).
Proof.
  unfold after_call. unfold_monad.
  destruct (getitem_Attributes response) as [e|attributes];
    [unfold on_exception; cbn; eauto 10|].
  destruct (getitem attributes "count") as [e|count];
    [unfold on_exception; cbn; eauto 10|].
  destruct (getitem_N count) as [e|new_count];
    [unfold on_exception; cbn; eauto 10|].
  cbn. unfold success_result. eauto 10.
Qed.

Lemma handler_rejected (event context : pyval) (w : World S) (e : exn) :
  checked table_name event = inl e →
  handler table_name event context w = on_exception e w.
Proof. intros H. now rewrite handler_checked, H. Qed.

Lemma handler_call_failed (event context : pyval) (w : World S)
    (req : UpdateItemInput) (s' : S) (e : exn) :
  checked table_name event = inr req →
  update_item req (store w) = (s', inl e) →
  handler table_name event context w
  = on_exception e {| store := s'; stdout := stdout w |}.
Proof. intros H Hcall. now rewrite handler_checked, H, Hcall. Qed.

Lemma handler_call_returned (event context : pyval) (w : World S)
    (req : UpdateItemInput) (s' : S) (response : UpdateItemOutput) :
  checked table_name event = inr req →
  update_item req (store w) = (s', inr response) →
  handler table_name event context w
  = try_except (after_call response) on_exception {| store := s'; stdout := stdout w |}.
Proof. intros H Hcall. now rewrite handler_checked, H, Hcall. Qed.

(** The handler never writes on its own: its final store is the one the
    call left, or the initial one when nothing was sent. *)
Lemma handler_store (event context : pyval) (w : World S) :
  store (handler table_name event context w).1 =
  match checked table_name event with
  | inl _ => store w
  | inr req => (update_item req (store w)).1
  end.
Proof.
  rewrite handler_checked. destruct (checked table_name event) as [e|req]; [reflexivity|].
  destruct (update_item req (store w)) as [s' [e|response]]; [reflexivity|].
  cbv beta iota zeta.
  destruct (after_call_outcome response {| store := s'; stdout := stdout w |})
    as (out & r & -> & _). reflexivity.
Qed.

(** The result is one of the two structured answers. *)
Lemma handler_result (event context : pyval) (w : World S) :
  (∃ n, (handler table_name event context w).2 = success_result n)
  ∨ (∃ e, (handler table_name event context w).2 = error_result (str e)).
Proof.
  rewrite handler_checked. destruct (checked table_name event) as [e|req];
    [right; exists e; reflexivity|].
  destruct (update_item req (store w)) as [s' [e|response]];
    [right; exists e; reflexivity|].
  cbv beta iota zeta.
  destruct (after_call_outcome response {| store := s'; stdout := stdout w |})
    as (out & r & -> & Hr). exact Hr.
Qed.
End BodyFacts.

(** The last part answers from the response and the lines already printed,
    whatever the store is. *)
Lemma after_call_result {S1 S2 : Type} (response : UpdateItemOutput)
    (w1 : World S1) (w2 : World S2) :
  stdout w1 = stdout w2 →
  (try_except (after_call response) on_exception w1).2
  = (try_except (after_call response) on_exception w2).2
  ∧ stdout (try_except (after_call response) on_exception w1).1
    = stdout (try_except (after_call response) on_exception w2).1.
Proof.
  intros Hout. unfold after_call, on_exception. unfold_monad.
  destruct (getitem_Attributes response) as [e|attributes];
    [cbn; now rewrite Hout|].
  destruct (getitem attributes "count") as [e|count]; [cbn; now rewrite Hout|].
  destruct (getitem_N count) as [e|new_count]; cbn; now rewrite Hout.
Qed.

Section RecordingFacts.
Context {S : Type} `{inner : !Client S}.
Variable table_name : string.

(** The requests sent are read off the decision of the first part. *)
Lemma requests_issued_checked (event context : pyval) (w : World S) :
  requests_issued table_name event context w =
  match checked table_name event with
  | inl _ => []
  | inr req => [req]
  end.
Proof.
  unfold requests_issued. rewrite (handler_store (dynamodb := recording)).
  destruct (checked table_name event) as [e|req]; [reflexivity|].
  unfold update_item at 1, recording. cbn [observe store fst snd].
  destruct (update_item req (store w)) as [s' r]. reflexivity.
Qed.

(** Observing the calls changes nothing else: the result, the lines
    printed and the store are those of the run that is not observed. *)
Lemma recording_transparent (event context : pyval) (w : World S) :
  let seen := handler (dynamodb := recording) table_name event context (observe w) in
  let run := handler table_name event context w in
  seen.2 = run.2 ∧ stdout seen.1 = stdout run.1 ∧ (store seen.1).1 = store run.1.
Proof.
  cbv zeta. rewrite !handler_checked.
  destruct (checked table_name event) as [e|req]; [cbn; auto|].
  cbn [observe store stdout].
  replace (update_item (Client := recording) req (store w, []))
    with (let '(s', r) := update_item req (store w) in ((s', [req]), r))
    by reflexivity.
  destruct (update_item req (store w)) as [s' [e|response]]; [cbn; auto|].
  cbv beta iota zeta.
  destruct (after_call_result response
              {| store := (s', [req]); stdout := stdout w |}
              {| store := s'; stdout := stdout w |} eq_refl) as [-> ->].
  split; [reflexivity|]. split; [reflexivity|].
  destruct (after_call_outcome response {| store := (s', [req]); stdout := stdout w |})
    as (out1 & r1 & -> & _).
  destruct (after_call_outcome response {| store := s'; stdout := stdout w |})
    as (out2 & r2 & -> & _). reflexivity.
Qed.
End RecordingFacts.

(** ** Events and what the body extracts from them *)

Module EventFacts.
Import Event.

Lemma leaves_well_shaped (ev : pyval) :
  well_shaped ev = true →
  leaves ev = inr (default PNone (field "bucketName" ev), default PNone (field "key" ev)).
Proof.
  unfold well_shaped, field, leaves.
  destruct ev as [| | | | | |d]; try discriminate. cbn.
  destruct (d !! "detail") as [[| | | | | |d1]|]; try discriminate; cbn.
  - destruct (d1 !! "requestParameters") as [[| | | | | |d2]|]; try discriminate; cbn.
    + intros _. destruct (d2 !! "bucketName"), (d2 !! "key"); reflexivity.
    + intros _. rewrite !lookup_empty. reflexivity.
  - intros _. rewrite !lookup_empty. cbn. rewrite !lookup_empty. reflexivity.
Qed.

Lemma leaves_ill_shaped (ev : pyval) :
  well_shaped ev = false → ∃ msg, leaves ev = inl (AttributeError msg).
Proof.
  unfold well_shaped, leaves.
  destruct ev as [| | | | | |d]; cbn; eauto.
  destruct (d !! "detail") as [[| | | | | |d1]|]; cbn; eauto; try discriminate.
  destruct (d1 !! "requestParameters") as [[| | | | | |d2]|]; cbn; eauto; discriminate.
Qed.

Lemma field_well_shaped (name : string) (ev v : pyval) :
  field name ev = Some v → well_shaped ev = true.
Proof.
  unfold well_shaped, field.
  destruct ev as [| | | | | |d]; try discriminate. cbn.
  destruct (d !! "detail") as [[| | | | | |d1]|]; try discriminate; cbn.
  destruct (d1 !! "requestParameters") as [[| | | | | |d2]|]; try discriminate; cbn.
  reflexivity.
Qed.

Lemma checked_valid (table_name : string) (ev : pyval) :
  valid ev → checked table_name ev = inr (request table_name "visit_count").
Proof.
  intros [(b & Hb & Hbne) (k & Hk & Hkne)]. unfold checked.
  rewrite leaves_well_shaped by (eapply field_well_shaped; eauto).
  rewrite Hb, Hk. cbn.
  destruct b; [congruence|]. destruct k; [congruence|]. reflexivity.
Qed.

Lemma checked_missing (table_name : string) (ev : pyval) :
  missing_or_empty (field "bucketName" ev) ∨ missing_or_empty (field "key" ev) →
  ∃ e, checked table_name ev = inl e
       ∧ (well_shaped ev = true → e = ValueError "Invalid event format").
Proof.
  intros Hmiss. unfold checked.
  destruct (well_shaped ev) eqn:Hshape.
  - rewrite leaves_well_shaped by assumption.
    exists (ValueError "Invalid event format"). split; [|reflexivity].
    destruct Hmiss as [[-> | ->] | [-> | ->]]; cbn;
      rewrite ?orb_true_r; reflexivity.
  - destruct (leaves_ill_shaped ev Hshape) as [msg ->].
    exists (AttributeError msg). split; [reflexivity | discriminate].
Qed.

End EventFacts.

(** ** The store under the handler's request *)

Module DynamoDBFacts.
Import DynamoDB.

(** The outcome of the request, by what the store shows of the counter. *)
Lemma apply_update_view (db : database) (t : string) :
  apply_update (request t "visit_count") db =
  match counter_view db t with
  | None => inl not_found
  | Some None => inr (incremented db t, counted 1)
  | Some (Some (VN c)) => inr (incremented db t, counted (c + 1))
  | Some (Some _) =>
      inl (validation "An operand in the update expression has an incorrect data type")
  end.
Proof.
  unfold counter_view, attr_of, apply_update, incremented, counted.
  cbn [TableName Key UpdateExpression
    ExpressionAttributeNames ExpressionAttributeValues ReturnValues request].
  destruct (db !! t) as [tbl|]; [|reflexivity].
  rewrite lookup_singleton_eq, map_size_singleton.
  change (parse_update_expression "ADD #count :inc") with (Some ("#count", ":inc")).
  cbn [resolve_name]. rewrite lookup_singleton_eq.
  change (String.eqb "count" "id") with false. cbn match.
  rewrite lookup_singleton_eq. cbn [mbind option_bind of_wire].
  change (parse_number "1") with (Some 1). cbn [fmap option_fmap option_map].
  destruct (tbl !! "visit_count") as [i|]; cbn [default from_option id].
  - destruct (i !! "count") as [[]|]; reflexivity.
  - rewrite lookup_empty. reflexivity.
Qed.

Lemma count_of_view (db : database) (t : string) :
  count_of db t =
  match counter_view db t with
  | Some None => Some 0
  | Some (Some (VN n)) => Some n
  | _ => None
  end.
Proof. unfold count_of, counter_view. destruct (db !! t); reflexivity. Qed.

Lemma count_of_incremented (db : database) (t : string) (c : Z) :
  count_of db t = Some c → count_of (incremented db t) t = Some (c + 1).
Proof.
  unfold count_of, incremented, attr_of.
  destruct (db !! t) as [tbl|] eqn:Htbl; [|discriminate].
  rewrite !lookup_insert_eq.
  destruct (tbl !! "visit_count") as [i|]; cbn [default from_option id].
  - destruct (i !! "count") as [[]|]; intros; simplify_eq; reflexivity.
  - rewrite lookup_empty. intros; simplify_eq; reflexivity.
Qed.

Lemma attr_of_incremented (db : database) (t t' k a : string) :
  (t', k, a) ≠ (t, "visit_count", "count") →
  attr_of (incremented db t) t' k a = attr_of db t' k a.
Proof.
  intros Hne. unfold incremented, attr_of.
  destruct (db !! t) as [tbl|] eqn:Htbl; [|reflexivity].
  destruct (decide (t' = t)) as [->|]; [|now rewrite lookup_insert_ne].
  rewrite lookup_insert_eq, Htbl.
  destruct (decide (k = "visit_count")) as [->|]; [|now rewrite lookup_insert_ne].
  rewrite lookup_insert_eq.
  rewrite lookup_insert_ne by congruence.
  destruct (tbl !! "visit_count"); [reflexivity | apply lookup_empty].
Qed.

(** A store that serves the request adds one and reports the new count. *)
Lemma client_ok (db : database) (t : string) (c : Z) :
  count_of db t = Some c →
  update_item (Client := client None) (request t "visit_count") db
  = (incremented db t, inr (counted (c + 1))).
Proof.
  rewrite count_of_view. intros Hc. unfold update_item, client.
  rewrite apply_update_view.
  destruct (counter_view db t) as [[[]|]|]; simplify_eq; reflexivity.
Qed.

(** A call that raises has written nothing. *)
Lemma client_failure_writes_nothing (fault : option string) (req : UpdateItemInput)
    (db db' : database) (e : exn) :
  update_item (Client := client fault) req db = (db', inl e) → db' = db.
Proof.
  unfold update_item, client. destruct fault; [congruence|].
  destruct (apply_update req db) as [msg|[db1 out]]; congruence.
Qed.

(** Every outcome of the handler's request on this store. *)
Lemma client_outcome (fault : option string) (db : database) (t : string) :
  (∃ msg, update_item (Client := client fault) (request t "visit_count") db
          = (db, inl (ClientError msg)))
  ∨ (∃ c, fault = None ∧ count_of db t = Some c ∧
          update_item (Client := client fault) (request t "visit_count") db
          = (incremented db t, inr (counted (c + 1)))).
Proof.
  destruct fault as [msg|]; [left; exists msg; reflexivity|].
  rewrite count_of_view. unfold update_item, client. rewrite apply_update_view.
  destruct (counter_view db t) as [[[]|]|]; eauto 10.
Qed.

(** The answer of the store depends on the counter alone. *)
Lemma client_reads_counter_only (fault : option string) (db1 db2 : database) (t : string) :
  counter_view db1 t = counter_view db2 t →
  (update_item (Client := client fault) (request t "visit_count") db1).2
  = (update_item (Client := client fault) (request t "visit_count") db2).2.
Proof.
  intros Hview. unfold update_item, client. destruct fault; [reflexivity|].
  rewrite !apply_update_view, Hview.
  destruct (counter_view db2 t) as [[[]|]|]; reflexivity.
Qed.

(** A call writes the counter attribute or nothing. *)
Lemma client_writes_counter_only (fault : option string) (db : database) (t t' k a : string) :
  attr_of (update_item (Client := client fault) (request t "visit_count") db).1 t' k a
  = attr_of db t' k a
  ∨ (t', k, a) = (t, "visit_count", "count").
Proof.
  destruct (decide ((t', k, a) = (t, "visit_count", "count"))) as [|Hne]; [now right|left].
  destruct (client_outcome fault db t) as [[msg ->] | (c & _ & _ & ->)]; [reflexivity|].
  now apply attr_of_incremented.
Qed.

(** Success on this store, in one equation. *)
Lemma handler_counts (table_name : string) (event context : pyval)
    (db : database) (out : list string) (c : Z) :
  Event.valid event →
  count_of db table_name = Some c →
  handler (dynamodb := client None) table_name event context {| store := db; stdout := out |}
  = ({| store := incremented db table_name;
        stdout := (out ++ ["Updated visit count: " ++ pretty (c + 1)])
                  ++ ["made few changes using the github actions"] |},
     success_result (pretty (c + 1))).
Proof.
  intros Hvalid Hc.
  rewrite (handler_call_returned (dynamodb := client None) table_name event context _
             (request table_name "visit_count") (incremented db table_name) (counted (c + 1)))
    by (auto using EventFacts.checked_valid, client_ok).
  apply after_call_counted.
Qed.

(** One invocation moves the count by 0 or by 1, the latter exactly on a
    200 answer. *)
Lemma handler_count_step (fault : option string) (table_name : string)
    (event context : pyval) (w : World database) (c : Z) :
  count_of (store w) table_name = Some c →
  ∃ c', count_of (store (handler (dynamodb := client fault) table_name event context w).1)
          table_name = Some c'
        ∧ (c' = c
           ∧ statusCode (handler (dynamodb := client fault) table_name event context w).2 = 500
           ∨ c' = c + 1
             ∧ statusCode (handler (dynamodb := client fault) table_name event context w).2 = 200).
Proof.
  intros Hc.
  destruct (checked table_name event) as [e|req] eqn:Hchk.
  - exists c. rewrite (handler_rejected table_name event context _ e Hchk). auto.
  - pose proof (checked_request table_name event req Hchk) as ->.
    destruct (client_outcome fault (store w) table_name)
      as [[msg Hcall] | (c' & -> & Hc' & Hcall)].
    + exists c. rewrite (handler_call_failed (dynamodb := client fault) table_name event context
                       w _ _ (ClientError msg) Hchk Hcall). auto.
    + exists (c + 1). assert (c' = c) as -> by congruence.
      rewrite (handler_call_returned (dynamodb := client None) table_name event context
                 w _ _ _ Hchk Hcall), after_call_counted.
      split; [now apply count_of_incremented | auto].
Qed.

(** Over any run of invocations the count only grows, by at most one per
    invocation. *)
Lemma count_never_decreases (fault : option string) (table_name : string)
    (events : list pyval) (context : pyval) (w : World database) (c : Z) :
  count_of (store w) table_name = Some c →
  ∃ c', count_of (store (invoke_all (dynamodb := client fault) table_name events context w).1)
          table_name = Some c'
        ∧ c ≤ c' ≤ c + Z.of_nat (length events).
Proof.
  revert w c. induction events as [|event events IH]; intros w c Hc.
  - exists c. cbn. split; [assumption | lia].
  - cbn [invoke_all].
    pose proof (handler_count_step fault table_name event context w c Hc) as Hstep.
    destruct (handler table_name event context w) as [w1 r].
    destruct Hstep as (c1 & Hc1 & Hle). cbn [fst snd] in Hc1, Hle.
    destruct (IH w1 c1 Hc1) as (c' & Hc' & Hle').
    destruct (invoke_all table_name events context w1) as [w2 rs].
    exists c'. split; [assumption|]. cbn [length]. lia.
Qed.

End DynamoDBFacts.

(** ** Interleavings *)

Module ConcurrentFacts.
Import DynamoDB Concurrent.

Section Progress.
Context {S : Type} `{dynamodb : !Client S}.
Variable table_name : string.

Lemma settle_remaining {A : Type} (next : A → phase) (run : World S * (exn + A)) (k : nat) :
  (∀ a, remaining {| at_phase := next a; printed := [] |} ≤ k)%nat →
  (remaining (settle next run).1 ≤ k)%nat.
Proof.
  intros Hnext. destruct run as [w [e|a]]; cbn; [lia | apply Hnext].
Qed.

(** Each part run brings the invocation closer to its end. *)
Lemma advance_remaining (inv : invocation) (s : S) :
  is_finished inv = false →
  (remaining (advance table_name inv s).1 < remaining inv)%nat.
Proof.
  unfold advance, is_finished, remaining at 2.
  destruct (at_phase inv); intros ?; try discriminate;
    apply Nat.lt_succ_r, settle_remaining; intros; cbn; lia.
Qed.

Lemma remaining_finished (inv : invocation) :
  remaining inv = 0%nat → is_finished inv = true.
Proof. unfold remaining, is_finished. destruct (at_phase inv); intros; congruence. Qed.

(** One invocation can always be run to its end, the others standing
    still. *)
Lemma finish_one (i : nat) (k : nat) :
  ∀ (s : S) (invs : list invocation) (inv : invocation),
    invs !! i = Some inv → (remaining inv ≤ k)%nat →
    ∃ s' inv', rtc (step table_name) (s, invs) (s', <[i := inv']> invs)
               ∧ is_finished inv' = true.
Proof.
  induction k as [|k IH]; intros s invs inv Hi Hk.
  - exists s, inv. rewrite list_insert_id by assumption.
    split; [reflexivity | apply remaining_finished; lia].
  - destruct (is_finished inv) eqn:Hfin.
    + exists s, inv. rewrite list_insert_id by assumption. split; [reflexivity | assumption].
    + pose proof (advance_remaining inv s Hfin) as Hlt.
      destruct (IH (advance table_name inv s).2 (<[i := (advance table_name inv s).1]> invs)
                  (advance table_name inv s).1) as (s' & inv' & Hrun & Hdone).
      * apply list_lookup_insert_eq. now apply lookup_lt_Some in Hi.
      * lia.
      * exists s', inv'. rewrite list_insert_insert_eq in Hrun. split; [|assumption].
        eapply rtc_l; [|exact Hrun]. now constructor.
Qed.

(** From any state of the system some schedule finishes everything. *)
Lemma finish_all (s : S) (invs : list invocation) :
  ∃ s' invs', rtc (step table_name) (s, invs) (s', invs')
              ∧ all_finished invs' ∧ length invs' = length invs.
Proof.
  assert (∀ k, (k ≤ length invs)%nat →
            ∃ s' invs', rtc (step table_name) (s, invs) (s', invs')
                        ∧ length invs' = length invs
                        ∧ ∀ j inv, (j < k)%nat → invs' !! j = Some inv → is_finished inv = true)
    as Hprefix.
  { induction k as [|k IH]; intros Hk.
    - exists s, invs. split; [reflexivity|]. split; [reflexivity|]. intros; lia.
    - destruct IH as (s1 & invs1 & Hrun1 & Hlen1 & Hdone1); [lia|].
      destruct (lookup_lt_is_Some_2 invs1 k) as [inv Hinv]; [lia|].
      destruct (finish_one k (remaining inv) s1 invs1 inv Hinv) as (s2 & inv2 & Hrun2 & Hdone2);
        [lia|].
      exists s2, (<[k := inv2]> invs1). split; [eapply rtc_trans; eassumption|].
      split; [now rewrite length_insert|].
      intros j inv' Hj Hlook. destruct (decide (j = k)) as [->|Hne].
      + rewrite list_lookup_insert_eq in Hlook by lia. congruence.
      + rewrite list_lookup_insert_ne in Hlook by congruence.
        apply (Hdone1 j inv'); [lia | assumption]. }
  destruct (Hprefix (length invs)) as (s' & invs' & Hrun & Hlen & Hdone); [lia|].
  exists s', invs'. split; [assumption|]. split; [|assumption].
  apply Forall_lookup. intros j inv Hlook. apply (Hdone j inv); [|assumption].
  apply lookup_lt_Some in Hlook. lia.
Qed.

(** A schedule is an interleaving. *)
Lemma run_schedule_steps (schedule : list nat) (cfg : S * list invocation) :
  rtc (step table_name) cfg (run_schedule table_name schedule cfg).
Proof.
  revert cfg. induction schedule as [|i rest IH]; intros [s invs]; [reflexivity|].
  cbn [run_schedule fst snd].
  destruct (invs !! i) as [inv|] eqn:Hi; [|apply IH].
  destruct (is_finished inv) eqn:Hfin; [apply IH|].
  eapply rtc_l; [|apply IH]. now constructor.
Qed.
End Progress.

Lemma applied_insert (invs : list invocation) (i : nat) (inv inv' : invocation) :
  invs !! i = Some inv →
  (applied (<[i := inv']> invs) + passed inv = applied invs + passed inv')%nat.
Proof.
  revert i. induction invs as [|x invs IH]; intros [|i] Hi; try discriminate.
  - simpl in *. simplify_eq. clear IH. lia.
  - simpl in *. specialize (IH i Hi). lia.
Qed.

Lemma applied_start_all (events : list pyval) (context : pyval) :
  applied (start_all events context) = 0%nat.
Proof. unfold start_all. induction events; cbn; [reflexivity | assumption]. Qed.

Lemma on_track_start_all (table_name : string) (events : list pyval) (context : pyval) :
  Forall Event.valid events → Forall (on_track table_name) (start_all events context).
Proof. unfold start_all. intros H. apply Forall_fmap. exact H. Qed.

Lemma applied_all_finished (invs : list invocation) :
  all_finished invs → applied invs = length invs.
Proof.
  unfold all_finished, is_finished.
  induction 1 as [|inv invs Hfin _ IH]; [reflexivity|]. cbn [applied length]. rewrite IH.
  unfold passed. destruct (at_phase inv); try discriminate; reflexivity.
Qed.

(** A step of any invocation keeps the count in line with the calls made. *)
Lemma step_counts_for (table_name : string) (c : Z) (n : nat)
    (cfg cfg' : database * list invocation) :
  counts_for table_name c n cfg →
  step (dynamodb := client None) table_name cfg cfg' →
  counts_for table_name c n cfg'.
Proof.
  intros (Htrack & Hlen & Hcount) Hstep.
  destruct Hstep as [i s invs inv Hi Hfin]. cbn [fst snd] in *.
  pose proof (Forall_lookup_1 _ _ _ _ Htrack Hi) as Hinv.
  pose proof (applied_insert invs i inv) as Happ.
  unfold counts_for. cbn [fst snd]. rewrite length_insert.
  unfold advance. unfold on_track in Hinv. unfold is_finished in Hfin.
  destruct inv as [ph out]. cbn [at_phase printed] in *.
  destruct ph as [event context|req|response|r]; [| | |discriminate].
  - rewrite before_call_checked, (EventFacts.checked_valid table_name event Hinv).
    cbn [settle fst snd store stdout].
    specialize (Happ {| at_phase := Calling (request table_name "visit_count");
                        printed := out |} Hi).
    unfold passed in Happ; cbn [at_phase] in Happ. split; [|split; [assumption|]].
    + apply Forall_insert; [assumption|reflexivity].
    + rewrite Hcount. f_equal. clear -Happ. lia.
  - subst req. unfold call. cbn [store stdout].
    rewrite (DynamoDBFacts.client_ok s table_name _ Hcount).
    cbn [settle fst snd store stdout].
    specialize (Happ {| at_phase := Called (counted (c + Z.of_nat (applied invs) + 1));
                        printed := out |} Hi).
    unfold passed in Happ; cbn [at_phase] in Happ. split; [|split; [assumption|]].
    + apply Forall_insert; [assumption|]. unfold on_track. cbn. eauto.
    + rewrite (DynamoDBFacts.count_of_incremented s table_name _ Hcount).
      f_equal. clear -Happ. lia.
  - destruct Hinv as [m ->]. rewrite after_call_returns. cbn [settle fst snd store stdout].
    specialize (Happ {| at_phase := Finished (success_result (pretty m));
                        printed := (out ++ ["Updated visit count: " ++ pretty m])
                                   ++ ["made few changes using the github actions"] |} Hi).
    unfold passed in Happ; cbn [at_phase] in Happ. split; [|split; [assumption|]].
    + apply Forall_insert; [assumption|]. unfold on_track. cbn. eauto.
    + rewrite Hcount. f_equal. clear -Happ. lia.
Qed.

Lemma steps_counts_for (table_name : string) (c : Z) (n : nat)
    (cfg cfg' : database * list invocation) :
  counts_for table_name c n cfg →
  rtc (step (dynamodb := client None) table_name) cfg cfg' →
  counts_for table_name c n cfg'.
Proof. intros Hinv Hrun. induction Hrun; eauto using step_counts_for. Qed.

(** One lone invocation, run part by part, is the handler. *)
Lemma advance_is_handler {S : Type} `{dynamodb : !Client S} (table_name : string)
    (event context : pyval) (w : World S) :
  let start := {| at_phase := Start event context; printed := stdout w |} in
  let '(inv1, s1) := advance table_name start (store w) in
  let '(inv2, s2) := advance table_name inv1 s1 in
  let '(inv3, s3) := advance table_name inv2 s2 in
  at_phase inv3 = Finished (handler table_name event context w).2
  ∧ printed inv3 = stdout (handler table_name event context w).1
  ∧ s3 = store (handler table_name event context w).1.
Proof.
  cbv zeta. rewrite handler_checked. destruct w as [s out].
  unfold advance at 1. cbn [at_phase printed store stdout].
  rewrite before_call_checked.
  destruct (checked table_name event) as [e|req]; cbn [settle on_exception store stdout];
    [cbn; auto|].
  unfold advance at 1. cbn [at_phase printed]. unfold call. cbn [store stdout].
  destruct (update_item req s) as [s' [e|response]];
    cbn [settle on_exception store stdout]; [cbn; auto|].
  unfold advance. cbn [at_phase printed]. unfold try_except.
  destruct (after_call response {| store := s'; stdout := out |}) as [w' [e|r]];
    cbn; auto.
Qed.

End ConcurrentFacts.

(** * The claims *)

Import Event DynamoDB Concurrent.

(** C1. For every event whose [detail.requestParameters] carries a
    non-empty [bucketName] string and a non-empty [key] string, on a store
    that serves the call and holds the count [c], the invocation leaves the
    count at [c + 1] and answers with status 200 and a body that decodes to
    the success message and the decimal text of [c + 1]. *)
Theorem valid_event_increments (table_name : string) (event context : pyval)
    (db : database) (out : list string) (c : Z) :
  valid event →
  count_of db table_name = Some c →
  let run := handler (dynamodb := client None) table_name event context
               {| store := db; stdout := out |} in
  count_of (store run.1) table_name = Some (c + 1)
  ∧ statusCode run.2 = 200
  ∧ Json.loads (body run.2)
    = Some [("message", "Visit count updated successfully"); ("count", pretty (c + 1))].
Proof.
  intros Hvalid Hc run. subst run.
  rewrite (DynamoDBFacts.handler_counts table_name event context db out c Hvalid Hc).
  cbn [fst snd store statusCode body success_result].
  split; [now apply DynamoDBFacts.count_of_incremented|]. split; [reflexivity|].
  apply JsonFacts.loads_dumps.
Qed.

(** The scenario of the specification: from count 0, one valid event is
    answered with count ["1"]. *)
Lemma first_visit_counts_one :
  let run := handler (dynamodb := client None) "visits" Scenario.event PNone Scenario.world in
  count_of (store run.1) "visits" = Some 1
  ∧ statusCode run.2 = 200
  ∧ Json.loads (body run.2)
    = Some [("message", "Visit count updated successfully"); ("count", "1")].
Proof.
  apply (valid_event_increments "visits" Scenario.event PNone Scenario.visits [] 0).
  - split; [exists "b" | exists "k"]; (split; [reflexivity | discriminate]).
  - reflexivity.
Defined.

(** C2 as written does not hold: in [{detail: {requestParameters: null}}]
    both leaves are missing, yet the error reported is the one of the
    failed [.get], not ['Invalid event format']. *)
Lemma null_parameters_not_invalid_format :
  (missing_or_empty (field "bucketName" Scenario.null_parameters)
   ∨ missing_or_empty (field "key" Scenario.null_parameters))
  ∧ (handler (dynamodb := client None) "visits" Scenario.null_parameters PNone Scenario.world).2
    = error_result "'NoneType' object has no attribute 'get'"
  ∧ ¬ answers_without_store (dynamodb := client None) "visits"
        Scenario.null_parameters PNone Scenario.world invalid_event_result.
Proof.
  split; [left; left; reflexivity|]. split; [reflexivity|].
  intros [H _]. apply (f_equal body) in H. apply JsonFacts.dumps_inj in H. discriminate.
Qed.

(** C2, amended. For every event in which [bucketName] is missing, [key]
    is missing, or either is the empty string, the handler answers with
    status 500 and the message ['Error updating visit count'], sends
    nothing to the store and leaves it as it was; the error field is
    ['Invalid event format'] whenever the event, [detail] and
    [detail.requestParameters] are each a mapping or absent. *)
Theorem missing_leaf_rejected {S : Type} `{dynamodb : !Client S} (table_name : string)
    (event context : pyval) (w : World S) :
  missing_or_empty (field "bucketName" event) ∨ missing_or_empty (field "key" event) →
  ∃ text, answers_without_store table_name event context w (error_result text)
          ∧ (well_shaped event = true → text = "Invalid event format").
Proof.
  intros Hmiss.
  destruct (EventFacts.checked_missing table_name event Hmiss) as (e & He & Hshape).
  exists (str e). split.
  - unfold answers_without_store.
    rewrite requests_issued_checked, handler_store, He.
    rewrite (handler_rejected table_name event context w e He). auto.
  - intros Hs. now rewrite (Hshape Hs).
Qed.

(** The scenario of the specification: [{detail: {requestParameters: {}}}]. *)
Lemma no_parameters_rejected :
  ∃ text, answers_without_store (dynamodb := client None) "visits"
            Scenario.no_parameters PNone Scenario.world (error_result text)
          ∧ (well_shaped Scenario.no_parameters = true → text = "Invalid event format").
Proof.
  apply (missing_leaf_rejected "visits" Scenario.no_parameters PNone Scenario.world).
  left. left. reflexivity.
Defined.

(** C3. For every event, every store client and every outcome of its call,
    the handler ends on a result (its embedding is a total function into
    results, and no exception is left to propagate): the status is 200
    with a body that decodes to a message and a count, or 500 with a body
    that decodes to a message and an error text. *)
Theorem handler_always_answers {S : Type} `{dynamodb : !Client S} (table_name : string)
    (event context : pyval) (w : World S) :
  ∃ w' r, handler table_name event context w = (w', r)
    ∧ ((statusCode r = 200
        ∧ ∃ n, Json.loads (body r)
               = Some [("message", "Visit count updated successfully"); ("count", n)])
       ∨ (statusCode r = 500
          ∧ ∃ text, Json.loads (body r)
                    = Some [("message", "Error updating visit count"); ("error", text)])).
Proof.
  exists (handler table_name event context w).1, (handler table_name event context w).2.
  split; [now destruct (handler table_name event context w)|].
  destruct (handler_result table_name event context w) as [[n ->] | [e ->]].
  - left. split; [reflexivity|]. exists n. apply JsonFacts.loads_dumps.
  - right. split; [reflexivity|]. exists (str e). apply JsonFacts.loads_dumps.
Qed.

(** C4. For every valid event and every store client, if the update call
    raises an exception [e], the handler answers with status 500 and a body
    whose error field is the text of [e]; the store is left as the failed
    call left it, that call being the only request sent. *)
Theorem store_failure_reported {S : Type} `{dynamodb : !Client S} (table_name : string)
    (event context : pyval) (w : World S) (s' : S) (e : exn) :
  valid event →
  update_item (request table_name "visit_count") (store w) = (s', inl e) →
  let run := handler table_name event context w in
  statusCode run.2 = 500
  ∧ Json.loads (body run.2)
    = Some [("message", "Error updating visit count"); ("error", str e)]
  ∧ store run.1 = s'
  ∧ requests_issued table_name event context w = [request table_name "visit_count"].
Proof.
  intros Hvalid Hcall run. subst run.
  pose proof (EventFacts.checked_valid table_name event Hvalid) as Hreq.
  rewrite requests_issued_checked, Hreq.
  rewrite (handler_call_failed table_name event context w _ s' e Hreq Hcall).
  cbn. split; [reflexivity|]. split; [apply JsonFacts.loads_dumps | auto].
Qed.

(** A throttled call on the DynamoDB-like store: the text comes back in
    the error field and the table is as before. *)
Lemma throttled_call_reported :
  let run := handler (dynamodb := client (Some "Rate exceeded")) "visits"
               Scenario.event PNone Scenario.world in
  statusCode run.2 = 500
  ∧ Json.loads (body run.2)
    = Some [("message", "Error updating visit count"); ("error", "Rate exceeded")]
  ∧ store run.1 = Scenario.visits
  ∧ requests_issued (inner := client (Some "Rate exceeded")) "visits"
      Scenario.event PNone Scenario.world = [request "visits" "visit_count"].
Proof.
  apply (store_failure_reported (dynamodb := client (Some "Rate exceeded")) "visits"
           Scenario.event PNone Scenario.world Scenario.visits (ClientError "Rate exceeded")).
  - split; [exists "b" | exists "k"]; (split; [reflexivity | discriminate]).
  - reflexivity.
Defined.

(** C5. The handler is not idempotent: for every valid event and initial
    count [c], on a store that serves the calls, one invocation leaves the
    count at [c + 1] and two invocations in sequence with the same event
    leave it at [c + 2], both answering 200 with their own count. *)
Theorem twice_counts_twice (table_name : string) (event context : pyval)
    (db : database) (out : list string) (c : Z) :
  valid event →
  count_of db table_name = Some c →
  let once := handler (dynamodb := client None) table_name event context
                {| store := db; stdout := out |} in
  let twice := invoke_all (dynamodb := client None) table_name [event; event] context
                 {| store := db; stdout := out |} in
  count_of (store once.1) table_name = Some (c + 1)
  ∧ count_of (store twice.1) table_name = Some (c + 2)
  ∧ twice.2 = [success_result (pretty (c + 1)); success_result (pretty (c + 2))].
Proof.
  intros Hvalid Hc once twice. subst once twice.
  pose proof (DynamoDBFacts.count_of_incremented db table_name c Hc) as Hc1.
  pose proof (DynamoDBFacts.count_of_incremented _ table_name _ Hc1) as Hc2.
  cbn [invoke_all].
  rewrite (DynamoDBFacts.handler_counts table_name event context db out c Hvalid Hc).
  rewrite (DynamoDBFacts.handler_counts table_name event context _ _ (c + 1) Hvalid Hc1).
  cbn [fst snd store]. replace (c + 1 + 1) with (c + 2) in * by lia. auto.
Qed.

Lemma same_event_twice :
  let once := handler (dynamodb := client None) "visits" Scenario.event PNone Scenario.world in
  let twice := invoke_all (dynamodb := client None) "visits"
                 [Scenario.event; Scenario.event] PNone Scenario.world in
  count_of (store once.1) "visits" = Some 1
  ∧ count_of (store twice.1) "visits" = Some 2
  ∧ twice.2 = [success_result "1"; success_result "2"].
Proof.
  apply (twice_counts_twice "visits" Scenario.event PNone Scenario.visits [] 0).
  - split; [exists "b" | exists "k"]; (split; [reflexivity | discriminate]).
  - reflexivity.
Defined.

(** C6. For every number of valid invocations started together on a store
    that serves the calls and holds the count [c], and every interleaving
    of their parts: from wherever the interleaving stands it can be run to
    the end, and whenever every invocation has finished the count is [c]
    plus the number of invocations. *)
Theorem concurrent_invocations_all_count (table_name : string) (events : list pyval)
    (context : pyval) (db : database) (c : Z) (mid : database * list invocation) :
  Forall valid events →
  count_of db table_name = Some c →
  rtc (step (dynamodb := client None) table_name) (db, start_all events context) mid →
  (∃ final, rtc (step (dynamodb := client None) table_name) mid final
            ∧ all_finished final.2
            ∧ count_of final.1 table_name = Some (c + Z.of_nat (length events)))
  ∧ (all_finished mid.2 →
     count_of mid.1 table_name = Some (c + Z.of_nat (length events))).
Proof.
  intros Hvalid Hc Hrun.
  assert (∀ cfg, rtc (step (dynamodb := client None) table_name)
                   (db, start_all events context) cfg →
                 all_finished cfg.2 →
                 count_of cfg.1 table_name = Some (c + Z.of_nat (length events)))
    as Hend.
  { intros cfg Hcfg Hall.
    assert (counts_for table_name c (length events) (db, start_all events context)) as Hinit.
    { split; [now apply ConcurrentFacts.on_track_start_all|]. cbn [fst snd].
      split; [unfold start_all; now rewrite length_fmap|].
      rewrite ConcurrentFacts.applied_start_all, Hc. do 2 f_equal. lia. }
    destruct (ConcurrentFacts.steps_counts_for table_name c _ _ _ Hinit Hcfg)
      as (_ & Hlen & Hcount).
    rewrite Hcount, (ConcurrentFacts.applied_all_finished _ Hall), Hlen. reflexivity. }
  split; [|now apply Hend].
  destruct mid as [s invs].
  destruct (ConcurrentFacts.finish_all (dynamodb := client None) table_name s invs)
    as (s' & invs' & Hfin & Hall & _).
  exists (s', invs'). split; [assumption|]. split; [assumption|].
  apply Hend; [eapply rtc_trans; eassumption | assumption].
Qed.

(** Two invocations whose parts alternate: both finish and the count is 2. *)
Lemma two_invocations_interleaved :
  let final := run_schedule (dynamodb := client None) "visits" [0; 1; 1; 0; 0; 1]%nat
                 (Scenario.visits, start_all [Scenario.event; Scenario.noisy_event] PNone) in
  all_finished final.2 ∧ count_of final.1 "visits" = Some 2.
Proof.
  intros final.
  assert (all_finished final.2) as Hall by (vm_compute; repeat constructor).
  split; [exact Hall|].
  refine (proj2 (concurrent_invocations_all_count "visits"
                   [Scenario.event; Scenario.noisy_event]
                   PNone Scenario.visits 0 final _ _ _) Hall).
  - repeat constructor; [exists "b" | exists "k" | exists "b" | exists "k"];
      (split; [reflexivity | discriminate]).
  - reflexivity.
  - apply ConcurrentFacts.run_schedule_steps.
Defined.

(** C7 as written does not hold: [{}] and [{detail: null}] agree on the two
    leaves (neither has them), yet the answers differ. *)
Lemma null_detail_changes_answer :
  agree (PDict ∅) Scenario.null_detail
  ∧ (handler (dynamodb := client None) "visits" (PDict ∅) PNone Scenario.world).2
    = error_result "Invalid event format"
  ∧ (handler (dynamodb := client None) "visits" Scenario.null_detail PNone Scenario.world).2
    = error_result "'NoneType' object has no attribute 'get'"
  ∧ handler (dynamodb := client None) "visits" (PDict ∅) PNone Scenario.world
    ≠ handler (dynamodb := client None) "visits" Scenario.null_detail PNone Scenario.world.
Proof.
  split; [split; reflexivity|]. split; [reflexivity|]. split; [reflexivity|].
  intros H. apply (f_equal (λ p, body p.2)) in H.
  apply JsonFacts.dumps_inj in H. discriminate.
Qed.

(** C7, amended. For every two events in which the event, [detail] and
    [detail.requestParameters] are each a mapping or absent, and which
    agree on the two leaves [bucketName] and [key], the handler gives the
    same result, leaves the same world and sends the same requests, for
    every store client, store state and context: nothing else of the event
    is looked at. *)
Theorem other_content_ignored {S : Type} `{dynamodb : !Client S} (table_name : string)
    (event1 event2 context1 context2 : pyval) (w : World S) :
  well_shaped event1 = true →
  well_shaped event2 = true →
  agree event1 event2 →
  handler table_name event1 context1 w = handler table_name event2 context2 w
  ∧ requests_issued table_name event1 context1 w
    = requests_issued table_name event2 context2 w.
Proof.
  intros Hs1 Hs2 [Hb Hk].
  assert (checked table_name event1 = checked table_name event2) as Hchk.
  { unfold checked. rewrite !EventFacts.leaves_well_shaped by assumption.
    now rewrite Hb, Hk. }
  now rewrite !requests_issued_checked, !handler_checked, Hchk.
Qed.

Lemma noisy_event_same_answer :
  handler (dynamodb := client None) "visits" Scenario.event PNone Scenario.world
  = handler (dynamodb := client None) "visits" Scenario.noisy_event (PStr "ctx") Scenario.world
  ∧ requests_issued (inner := client None) "visits" Scenario.event PNone Scenario.world
    = requests_issued (inner := client None) "visits" Scenario.noisy_event (PStr "ctx")
        Scenario.world.
Proof.
  apply (other_content_ignored "visits" Scenario.event Scenario.noisy_event PNone (PStr "ctx")
           Scenario.world); [reflexivity | reflexivity | split; reflexivity].
Defined.

(** C8 as written does not hold: in [{detail: null}] there is no
    [detail.requestParameters], yet nothing defaults to an empty mapping
    and the error reported is the one of the failed [.get]. *)
Lemma null_detail_not_defaulted :
  lookup_path ["detail"; "requestParameters"] Scenario.null_detail = None
  ∧ (handler (dynamodb := client None) "visits" Scenario.null_detail PNone Scenario.world).2
    = error_result "'NoneType' object has no attribute 'get'"
  ∧ ¬ answers_without_store (dynamodb := client None) "visits"
        Scenario.null_detail PNone Scenario.world invalid_event_result.
Proof.
  split; [reflexivity|]. split; [reflexivity|].
  intros [H _]. apply (f_equal body) in H. apply JsonFacts.dumps_inj in H. discriminate.
Qed.

(** C8, amended. For every event that is a mapping without a [detail]
    entry, or whose [detail] is a mapping without a [requestParameters]
    entry, the handler behaves exactly as for
    [{detail: {requestParameters: {}}}]: it gives the 500 ['Invalid event
    format'] result, sends nothing to the store and leaves it as it was. *)
Theorem missing_level_defaults {S : Type} `{dynamodb : !Client S} (table_name : string)
    (d : gmap string pyval) (context : pyval) (w : World S) :
  d !! "detail" = None
  ∨ (∃ d1, d !! "detail" = Some (PDict d1) ∧ d1 !! "requestParameters" = None) →
  answers_without_store table_name (PDict d) context w invalid_event_result
  ∧ handler table_name (PDict d) context w
    = handler table_name Scenario.no_parameters context w.
Proof.
  intros Hmiss.
  assert (checked table_name (PDict d) = inl (ValueError "Invalid event format")) as Hchk.
  { unfold checked, leaves. cbn [get].
    destruct Hmiss as [-> | (d1 & -> & Hrp)]; cbn [from_option id get].
    - rewrite !lookup_empty. cbn [from_option id get]. rewrite !lookup_empty. reflexivity.
    - rewrite Hrp. cbn [from_option id get]. rewrite !lookup_empty. reflexivity. }
  split.
  - unfold answers_without_store.
    rewrite requests_issued_checked, handler_store, Hchk.
    rewrite (handler_rejected table_name _ context w _ Hchk). auto.
  - rewrite (handler_rejected table_name _ context w _ Hchk).
    symmetry. apply handler_rejected. reflexivity.
Qed.

Lemma empty_event_rejected :
  answers_without_store (dynamodb := client None) "visits" (PDict ∅) PNone Scenario.world
    invalid_event_result
  ∧ handler (dynamodb := client None) "visits" (PDict ∅) PNone Scenario.world
    = handler (dynamodb := client None) "visits" Scenario.no_parameters PNone Scenario.world.
Proof.
  apply (missing_level_defaults "visits" ∅ PNone Scenario.world).
  left. reflexivity.
Defined.

(** C9. Whatever the event, the store client and the store state, an
    invocation sends nothing or one request: the one on key [id =
    "visit_count"] of the configured table whose only action adds to the
    attribute [count].  On the DynamoDB-like store, after the invocation
    every attribute of every item of every table is as before, the [count]
    of the counter record apart; and the result is the same on any other
    store state that shows the same counter. *)
Theorem only_the_counter_is_touched (fault : option string) (table_name : string)
    (event context : pyval) (db db2 : database) (out : list string) (t' k a : string) :
  let run := handler (dynamodb := client fault) table_name event context
               {| store := db; stdout := out |} in
  let req := request table_name "visit_count" in
  (∀ (S : Type) (any : Client S) (w : World S),
     requests_issued (inner := any) table_name event context w = []
     ∨ requests_issued (inner := any) table_name event context w = [req])
  ∧ (TableName req = table_name
     ∧ Key req = {[ "id" := AttrS "visit_count" ]}
     ∧ parse_update_expression (UpdateExpression req) = Some ("#count", ":inc")
     ∧ resolve_name (ExpressionAttributeNames req) "#count" = Some "count")
  ∧ (attr_of (store run.1) t' k a = attr_of db t' k a
     ∨ (t', k, a) = (table_name, "visit_count", "count"))
  ∧ (counter_view db2 table_name = counter_view db table_name →
     (handler (dynamodb := client fault) table_name event context
        {| store := db2; stdout := out |}).2 = run.2).
Proof.
  intros run req. subst run req. split; [|split; [|split]].
  - intros S any w. rewrite requests_issued_checked.
    destruct (checked table_name event) as [e|req] eqn:Hchk; [now left|right].
    now rewrite (checked_request table_name event req Hchk).
  - repeat split; reflexivity.
  - rewrite handler_store. destruct (checked table_name event) as [e|req] eqn:Hchk;
      [now left|]. rewrite (checked_request table_name event req Hchk).
    apply DynamoDBFacts.client_writes_counter_only.
  - intros Hview. rewrite !handler_checked.
    destruct (checked table_name event) as [e|req] eqn:Hchk; [reflexivity|].
    rewrite (checked_request table_name event req Hchk). cbn [store stdout].
    pose proof (DynamoDBFacts.client_reads_counter_only fault db2 db table_name Hview)
      as Hsame.
    destruct (update_item (request table_name "visit_count") db2) as [s2 r2].
    destruct (update_item (request table_name "visit_count") db) as [s1 r1].
    cbn [snd] in Hsame. subst r2. destruct r1 as [e|response]; [reflexivity|].
    destruct (after_call_result response {| store := s2; stdout := out |}
                {| store := s1; stdout := out |} eq_refl) as [-> _]. reflexivity.
Qed.

(** On a table with other attributes, items and tables around the
    counter: another item's [count] is as before, and the answer is the
    one given on the bare counter. *)
Lemma other_records_untouched :
  let run := handler (dynamodb := client None) "visits" Scenario.event PNone
               {| store := Scenario.busy; stdout := [] |} in
  attr_of (store run.1) "visits" "other" "count" = Some (VN 7)
  ∧ (handler (dynamodb := client None) "visits" Scenario.event PNone
       {| store := Scenario.bare; stdout := [] |}).2 = run.2
  ∧ run.2 = success_result "42".
Proof.
  intros run.
  destruct (only_the_counter_is_touched None "visits" Scenario.event PNone
              Scenario.busy Scenario.bare [] "visits" "other" "count")
    as (_ & _ & Hframe & Hread).
  split; [|split].
  - destruct Hframe as [Hsame | Hcounter]; [exact Hsame | discriminate Hcounter].
  - apply Hread. reflexivity.
  - reflexivity.
Defined.

(** C10. The count never goes down: for every event, every outcome of the
    store call and every initial count [c], after the invocation the count
    is [c] and the status 500 (validation or store failure), or the count
    is [c + 1] and the status 200. *)
Theorem count_stays_or_steps (fault : option string) (table_name : string)
    (event context : pyval) (db : database) (out : list string) (c : Z) :
  count_of db table_name = Some c →
  let run := handler (dynamodb := client fault) table_name event context
               {| store := db; stdout := out |} in
  (statusCode run.2 = 500 ∧ count_of (store run.1) table_name = Some c)
  ∨ (statusCode run.2 = 200 ∧ count_of (store run.1) table_name = Some (c + 1)).
Proof.
  intros Hc run. subst run.
  destruct (DynamoDBFacts.handler_count_step fault table_name event context
              {| store := db; stdout := out |} c Hc) as (c' & Hc' & [[-> H] | [-> H]]); auto.
Qed.

Lemma count_after_rejected_event :
  let run := handler (dynamodb := client None) "visits" Scenario.no_parameters PNone
               {| store := Scenario.busy; stdout := [] |} in
  (statusCode run.2 = 500 ∧ count_of (store run.1) "visits" = Some 41)
  ∨ (statusCode run.2 = 200 ∧ count_of (store run.1) "visits" = Some (41 + 1)).
Proof.
  apply (count_stays_or_steps None "visits" Scenario.no_parameters PNone Scenario.busy [] 41).
  reflexivity.
Defined.

(** * Further properties of the module *)

Module TextFacts.
Import Text Json.

#[local] Arguments String.append !_ _ / : simpl nomatch.

Lemma all_printable_append (a b : string) :
  all_printable (a ++ b) = all_printable a && all_printable b.
Proof.
  induction a as [|c a IH]; [reflexivity|].
  cbn [String.append all_printable]. rewrite IH. apply andb_assoc.
Qed.

(** Every escape is made of printable characters. *)
Lemma escape_char_printable (c : ascii) : all_printable (escape_char c) = true.
Proof.
  destruct c as [b0 b1 b2 b3 b4 b5 b6 b7].
  destruct b0, b1, b2, b3, b4, b5, b6, b7; reflexivity.
Qed.

Lemma escape_printable (s : string) : all_printable (escape s) = true.
Proof.
  induction s as [|c s IH]; [reflexivity|].
  cbn [escape]. now rewrite all_printable_append, escape_char_printable, IH.
Qed.

Lemma quote_printable (s : string) : all_printable (quote s) = true.
Proof.
  unfold quote. rewrite all_printable_append. cbn [all_printable].
  now rewrite escape_printable.
Qed.

Lemma members_printable (o : list (string * string)) : all_printable (members o) = true.
Proof.
  induction o as [|kv o IH]; [reflexivity|].
  assert (all_printable (member kv) = true) as Hm.
  { unfold member. now rewrite !all_printable_append, !quote_printable. }
  destruct o as [|kv' o]; [exact Hm|].
  change (members (kv :: kv' :: o)) with (member kv ++ ", " ++ members (kv' :: o)).
  now rewrite !all_printable_append, Hm, IH.
Qed.

Lemma dumps_printable (o : list (string * string)) : all_printable (dumps o) = true.
Proof.
  unfold dumps. now rewrite !all_printable_append, members_printable.
Qed.

End TextFacts.

Module MoreFacts.

(** The decision of the first part, by the acceptance test. *)
Lemma accepts_checked (table_name : string) (event : pyval) :
  checked table_name event =
  if accepts event then inr (request table_name "visit_count")
  else inl (match leaves event with
            | inl e => e
            | inr _ => ValueError "Invalid event format"
            end).
Proof.
  unfold checked, accepts. destruct (leaves event) as [e|[b k]]; [reflexivity|].
  destruct (truthy b), (truthy k); reflexivity.
Qed.

Lemma accepts_well_shaped (event : pyval) :
  well_shaped event = true →
  accepts event = truthy (default PNone (field "bucketName" event))
                  && truthy (default PNone (field "key" event)).
Proof. intros H. unfold accepts. now rewrite EventFacts.leaves_well_shaped. Qed.


(** The last part, by what line 30 reads off the response. *)
Lemma after_call_response_count {S : Type} (response : UpdateItemOutput) (w : World S) :
  try_except (after_call response) on_exception w =
  match response_count response with
  | inr n => ({| store := store w;
                 stdout := (stdout w ++ ["Updated visit count: " ++ n])
                           ++ ["made few changes using the github actions"] |},
              success_result n)
  | inl e => on_exception e w
  end.
Proof.
  unfold after_call, response_count. unfold_monad.
  destruct (getitem_Attributes response) as [e|attributes]; [reflexivity|].
  destruct (getitem attributes "count") as [e|count]; [reflexivity|].
  destruct (getitem_N count) as [e|new_count]; reflexivity.
Qed.

(** One invocation on a store that serves every call. *)
Lemma served_step (table_name : string) (event context : pyval)
    (db : database) (out : list string) (c : Z) :
  count_of db table_name = Some c →
  ∃ db' out' r,
    handler (dynamodb := client None) table_name event context {| store := db; stdout := out |}
    = ({| store := db'; stdout := out' |}, r)
    ∧ count_of db' table_name = Some (c + if accepts event then 1 else 0)
    ∧ statusCode r = served_status event.
Proof.
  intros Hc. unfold served_status.
  pose proof (accepts_checked table_name event) as Hchk.
  destruct (accepts event).
  - rewrite (handler_call_returned (dynamodb := client None) table_name event context
               {| store := db; stdout := out |} _ _ _ Hchk
               (DynamoDBFacts.client_ok db table_name c Hc)).
    rewrite after_call_counted. do 3 eexists. split; [reflexivity|].
    split; [now apply DynamoDBFacts.count_of_incremented | reflexivity].
  - rewrite (handler_rejected table_name event context _ _ Hchk).
    unfold on_exception. do 3 eexists. split; [reflexivity|].
    cbn [store]. split; [rewrite Hc; f_equal; lia | reflexivity].
Qed.

End MoreFacts.

Module TicketFacts.
Import Tickets.

Lemma omap_insert_ticket (ns : list (option Z)) (i : nat) (m : Z) :
  ns !! i = Some None → omap id (<[i := Some m]> ns) ≡ₚ m :: omap id ns.
Proof.
  revert i. induction ns as [|x ns IH]; intros [|i] Hi; try discriminate.
  - cbn in Hi. simplify_eq. reflexivity.
  - cbn in Hi. specialize (IH i Hi). destruct x as [y|]; simpl.
    + rewrite IH. apply perm_swap.
    + exact IH.
Qed.

Lemma omap_replicate_None (n : nat) : omap id (replicate n (@None Z)) = [].
Proof. induction n as [|n IH]; [reflexivity | exact IH]. Qed.

(** A step of any invocation gives out a fresh count or none. *)
Lemma step_tickets_for (table_name : string) (c : Z) (cfg cfg' : database * list invocation) :
  tickets_for table_name c cfg →
  step (dynamodb := client None) table_name cfg cfg' →
  tickets_for table_name c cfg'.
Proof.
  intros (ns & Hholds & Hnodup & Hrange & Hcount) Hstep.
  destruct Hstep as [i s invs inv Hi Hfin]. cbn [fst snd] in *.
  destruct (Forall2_lookup_l _ _ _ _ _ Hholds Hi) as (n & Hn & Hinv).
  unfold advance. unfold holds in Hinv. unfold is_finished in Hfin.
  destruct inv as [ph out]. cbn [at_phase printed] in *.
  destruct ph as [event context|req|response|r]; [| | |discriminate].
  - destruct n as [m|]; [contradiction|].
    rewrite before_call_checked, (EventFacts.checked_valid table_name event Hinv).
    cbn [settle fst snd store stdout].
    exists ns. split; [|auto].
    rewrite <- (list_insert_id ns i None Hn). apply Forall2_insert; [assumption|reflexivity].
  - destruct n as [m|]; [contradiction|]. subst req. unfold call. cbn [store stdout].
    rewrite (DynamoDBFacts.client_ok s table_name _ Hcount).
    cbn [settle fst snd store stdout].
    remember (c + Z.of_nat (length (omap id ns)) + 1) as m eqn:Hm.
    pose proof (omap_insert_ticket ns i m Hn) as Hperm.
    assert (length (omap id (<[i := Some m]> ns)) = Datatypes.S (length (omap id ns)))
      as Hlen by (now rewrite Hperm).
    exists (<[i := Some m]> ns). rewrite Hlen. cbn [fst snd]. split; [|split; [|split]].
    + apply Forall2_insert; [assumption|reflexivity].
    + rewrite Hperm. constructor; [|assumption].
      intros Hin. rewrite Forall_forall in Hrange. specialize (Hrange m Hin).
      clear -Hrange Hm. lia.
    + rewrite Hperm. constructor; [clear -Hm; lia|].
      eapply Forall_impl; [exact Hrange|]. intros x Hx. cbn beta in *. clear -Hx. lia.
    + rewrite (DynamoDBFacts.count_of_incremented s table_name _ Hcount).
      f_equal. clear -Hm. lia.
  - destruct n as [m|]; [|contradiction]. subst response.
    rewrite after_call_returns. cbn [settle fst snd store stdout].
    exists ns. split; [|auto].
    rewrite <- (list_insert_id ns i (Some m) Hn). apply Forall2_insert; [assumption|reflexivity].
Qed.

Lemma steps_tickets_for (table_name : string) (c : Z) (cfg cfg' : database * list invocation) :
  tickets_for table_name c cfg →
  rtc (step (dynamodb := client None) table_name) cfg cfg' →
  tickets_for table_name c cfg'.
Proof. intros Hinv Hrun. induction Hrun; eauto using step_tickets_for. Qed.

Lemma tickets_for_start (table_name : string) (c : Z) (events : list pyval)
    (context : pyval) (db : database) :
  Forall valid events → count_of db table_name = Some c →
  tickets_for table_name c (db, start_all events context).
Proof.
  intros Hvalid Hc. exists (replicate (length events) None). cbn [fst snd].
  rewrite omap_replicate_None.
  split; [|split; [constructor | split; [constructor | rewrite Hc; f_equal; cbn; lia]]].
  unfold start_all. induction Hvalid; cbn; constructor; assumption.
Qed.

Lemma holds_all_finished (table_name : string) (invs : list invocation)
    (ns : list (option Z)) :
  Forall2 (holds table_name) invs ns → all_finished invs →
  Forall2 (λ inv m, at_phase inv = Finished (success_result (pretty m))) invs (omap id ns)
  ∧ length (omap id ns) = length invs.
Proof.
  unfold all_finished, is_finished, holds.
  induction 1 as [|inv n invs ns Hinv _ IH]; intros Hall; [split; constructor|].
  apply Forall_cons in Hall as [Hfin Hall]. destruct (IH Hall) as [IH1 IH2].
  destruct (at_phase inv) eqn:Hph; try discriminate.
  destruct n as [m|]; [|contradiction]. subst. cbn [omap list_omap id length].
  split; [constructor; assumption | now f_equal].
Qed.

(** No step adds or removes an invocation. *)
Lemma steps_length {S : Type} `{dynamodb : !Client S} (table_name : string)
    (cfg cfg' : S * list invocation) :
  rtc (step table_name) cfg cfg' → length cfg'.2 = length cfg.2.
Proof.
  induction 1 as [|cfg1 cfg2 cfg3 Hstep _ IH]; [reflexivity|].
  rewrite IH. destruct Hstep. cbn [snd]. apply length_insert.
Qed.

End TicketFacts.

(** X1. For an event whose levels are mappings where present, validation
    is Python truthiness of the two leaves, an absent leaf counting as
    [None]: when both are truthy exactly one request is sent; when either
    is falsy (absent, null, false, 0, 0.0, empty string, list or mapping)
    the answer is the 500 ['Invalid event format'] result and nothing is
    sent. *)
Theorem validation_is_truthiness {S : Type} `{dynamodb : !Client S} (table_name : string)
    (event context : pyval) (w : World S) :
  well_shaped event = true →
  if truthy (default PNone (field "bucketName" event))
     && truthy (default PNone (field "key" event))
  then requests_issued table_name event context w = [request table_name "visit_count"]
  else answers_without_store table_name event context w invalid_event_result.
Proof.
  intros Hshape. rewrite <- (MoreFacts.accepts_well_shaped event Hshape).
  pose proof (MoreFacts.accepts_checked table_name event) as Hchk.
  rewrite (EventFacts.leaves_well_shaped event Hshape) in Hchk.
  destruct (accepts event).
  - now rewrite requests_issued_checked, Hchk.
  - unfold answers_without_store.
    rewrite requests_issued_checked, handler_store, Hchk.
    rewrite (handler_rejected table_name event context w _ Hchk). auto.
Qed.

Lemma zero_bucket_rejected :
  answers_without_store (dynamodb := client None) "visits" Odd.zero_bucket PNone
    Scenario.world invalid_event_result.
Proof.
  apply (validation_is_truthiness (dynamodb := client None) "visits" Odd.zero_bucket PNone
           Scenario.world).
  reflexivity.
Defined.

(** X2. The leaves need not be strings: any two truthy values under
    [bucketName] and [key] (a number, a non-empty list, ...) make the event
    count, on a store that serves the call: the answer is 200 with the new
    count and the stored count goes up by one. *)
Theorem truthy_leaves_count (table_name : string) (event context : pyval)
    (bucket_name object_key : pyval) (db : database) (out : list string) (c : Z) :
  field "bucketName" event = Some bucket_name →
  field "key" event = Some object_key →
  truthy bucket_name = true →
  truthy object_key = true →
  count_of db table_name = Some c →
  let run := handler (dynamodb := client None) table_name event context
               {| store := db; stdout := out |} in
  run.2 = success_result (pretty (c + 1))
  ∧ count_of (store run.1) table_name = Some (c + 1).
Proof.
  intros Hb Hk Htb Htk Hc run. subst run.
  assert (checked table_name event = inr (request table_name "visit_count")) as Hchk.
  { rewrite MoreFacts.accepts_checked,
      (MoreFacts.accepts_well_shaped event (EventFacts.field_well_shaped _ _ _ Hb)).
    now rewrite Hb, Hk; cbn [default from_option id]; rewrite Htb, Htk. }
  rewrite (handler_call_returned (dynamodb := client None) table_name event context
             {| store := db; stdout := out |} _ _ _ Hchk
             (DynamoDBFacts.client_ok db table_name c Hc)).
  rewrite after_call_counted. cbn [fst snd store].
  split; [reflexivity | now apply DynamoDBFacts.count_of_incremented].
Qed.

Lemma number_and_list_leaves_count :
  let run := handler (dynamodb := client None) "visits" Odd.untyped_leaves PNone
               Scenario.world in
  run.2 = success_result "1" ∧ count_of (store run.1) "visits" = Some 1.
Proof.
  apply (truthy_leaves_count "visits" Odd.untyped_leaves PNone (PInt 5) (PList [PNone])
           Scenario.visits [] 0); reflexivity.
Defined.



(** X4. When the store call returns but the response has no [Attributes],
    no [count] among them, or a [count] that is not a number, the answer is
    the 500 result whose error is the missing key in quotes, and the store
    stays as the call left it: a write already made is not undone. *)
Theorem response_without_count_is_error {S : Type} `{dynamodb : !Client S}
    (table_name : string) (event context : pyval) (w : World S) (s' : S)
    (response : UpdateItemOutput) (key : string) :
  valid event →
  update_item (request table_name "visit_count") (store w) = (s', inr response) →
  missing_entry response = Some key →
  let run := handler table_name event context w in
  run.2 = error_result ("'" ++ key ++ "'") ∧ store run.1 = s'.
Proof.
  intros Hvalid Hcall Hkey run. subst run.
  rewrite (handler_call_returned table_name event context w _ s' response
             (EventFacts.checked_valid table_name event Hvalid) Hcall).
  rewrite MoreFacts.after_call_response_count.
  unfold response_count, getitem_Attributes, getitem. unfold missing_entry in Hkey.
  destruct (Attributes response) as [attributes|]; [|simplify_eq; split; reflexivity].
  destruct (attributes !! "count") as [[]|]; simplify_eq; split; reflexivity.
Qed.

Lemma silent_store_still_written :
  let run := handler (dynamodb := Odd.silent) "visits" Scenario.event PNone
               {| store := 7; stdout := [] |} in
  run.2 = error_result "'Attributes'" ∧ store run.1 = 8.
Proof.
  apply (response_without_count_is_error (dynamodb := Odd.silent) "visits" Scenario.event
           PNone {| store := 7; stdout := [] |} 8 {| Attributes := None |} "Attributes").
  - split; [exists "b" | exists "k"]; (split; [reflexivity | discriminate]).
  - reflexivity.
  - reflexivity.
Defined.

(** X5. The count answered is the text the store reported, as it is: the
    handler neither parses nor checks it, and looks at no other attribute
    of the response. *)
Theorem reported_count_echoed {S : Type} `{dynamodb : !Client S}
    (table_name : string) (event context : pyval) (w : World S) (s' : S)
    (response : UpdateItemOutput) (attributes : gmap string AttributeValue) (n : string) :
  valid event →
  update_item (request table_name "visit_count") (store w) = (s', inr response) →
  Attributes response = Some attributes →
  attributes !! "count" = Some (AttrN n) →
  let run := handler table_name event context w in
  run.2 = success_result n
  ∧ Json.loads (body run.2)
    = Some [("message", "Visit count updated successfully"); ("count", n)]
  ∧ store run.1 = s'.
Proof.
  intros Hvalid Hcall Hattrs Hcount run. subst run.
  rewrite (handler_call_returned table_name event context w _ s' response
             (EventFacts.checked_valid table_name event Hvalid) Hcall).
  rewrite MoreFacts.after_call_response_count.
  unfold response_count, getitem_Attributes, getitem.
  rewrite Hattrs, Hcount. cbn [getitem_N fst snd store].
  split; [reflexivity|]. split; [apply JsonFacts.loads_dumps | reflexivity].
Qed.

Lemma decimal_count_echoed :
  let run := handler (dynamodb := Odd.chatty) "visits" Scenario.event PNone
               {| store := 7; stdout := [] |} in
  run.2 = success_result "1.50"
  ∧ Json.loads (body run.2)
    = Some [("message", "Visit count updated successfully"); ("count", "1.50")]
  ∧ store run.1 = 8.
Proof.
  apply (reported_count_echoed (dynamodb := Odd.chatty) "visits" Scenario.event PNone
           {| store := 7; stdout := [] |} 8
           {| Attributes := Some {[ "count" := AttrN "1.50"; "owner" := AttrS "ops" ]} |}
           {[ "count" := AttrN "1.50"; "owner" := AttrS "ops" ]} "1.50").
  - split; [exists "b" | exists "k"]; (split; [reflexivity | discriminate]).
  - reflexivity.
  - reflexivity.
  - reflexivity.
Defined.

(** X6. The lines printed match the answer: a 200 answer with count [n]
    comes with exactly the two lines ["Updated visit count: n"] and the
    fixed one, a 500 answer with error [text] with the single line
    ["Error: text"]; earlier output is kept and nothing else is printed. *)
Theorem log_matches_answer {S : Type} `{dynamodb : !Client S} (table_name : string)
    (event context : pyval) (w : World S) :
  let run := handler table_name event context w in
  (∃ n, run.2 = success_result n
        ∧ stdout run.1
          = ((stdout w ++ [("Updated visit count: " ++ n)%string])
             ++ ["made few changes using the github actions"])%list)
  ∨ (∃ text, run.2 = error_result text
             ∧ stdout run.1 = (stdout w ++ [("Error: " ++ text)%string])%list).
Proof.
  intros run. subst run. rewrite handler_checked.
  destruct (checked table_name event) as [e|req]; [right; exists (str e); split; reflexivity|].
  destruct (update_item req (store w)) as [s' [e|response]];
    [right; exists (str e); split; reflexivity|].
  cbv beta iota zeta. rewrite MoreFacts.after_call_response_count.
  destruct (response_count response) as [e|n].
  - right. exists (str e). split; reflexivity.
  - left. exists n. split; reflexivity.
Qed.

(** X7. Whatever the event and whatever text the store reports or raises,
    the body is made of printable ASCII characters only: quotes,
    backslashes, control and non-ASCII characters of the text are
    escaped. *)
Theorem body_is_printable_ascii {S : Type} `{dynamodb : !Client S} (table_name : string)
    (event context : pyval) (w : World S) :
  Text.all_printable (body (handler table_name event context w).2) = true.
Proof.
  destruct (handler_result table_name event context w) as [[n ->] | [e ->]];
    apply TextFacts.dumps_printable.
Qed.

(** X8. The body alone tells the answer: two invocations, on any events,
    clients and stores, that give the same body give the same status; a
    success body is never an error body. *)
Theorem body_determines_answer {S1 S2 : Type} (store1 : Client S1) (store2 : Client S2)
    (table1 table2 : string) (event1 event2 context1 context2 : pyval)
    (w1 : World S1) (w2 : World S2) :
  body (handler (dynamodb := store1) table1 event1 context1 w1).2
  = body (handler (dynamodb := store2) table2 event2 context2 w2).2 →
  (handler (dynamodb := store1) table1 event1 context1 w1).2
  = (handler (dynamodb := store2) table2 event2 context2 w2).2.
Proof.
  destruct (handler_result (dynamodb := store1) table1 event1 context1 w1)
    as [[n1 ->] | [e1 ->]];
    destruct (handler_result (dynamodb := store2) table2 event2 context2 w2)
      as [[n2 ->] | [e2 ->]];
    cbn [body success_result error_result]; intros H;
    apply JsonFacts.dumps_inj in H; simplify_eq; congruence.
Qed.

Lemma same_body_same_answer :
  (handler (dynamodb := client None) "visits" Scenario.event PNone Scenario.world).2
  = (handler (dynamodb := client None) "visits" Odd.untyped_leaves (PStr "ctx")
       Scenario.world).2.
Proof.
  apply (body_determines_answer (client None) (client None) "visits" "visits"
           Scenario.event Odd.untyped_leaves PNone (PStr "ctx") Scenario.world Scenario.world).
  reflexivity.
Defined.

(** X9. Over any sequence of events handled one after the other on a
    store that serves every call, the count ends at the initial count plus
    the number of events that pass validation, and the statuses are 200 for
    exactly those events, 500 for the others, in order. *)
Theorem batch_counts_accepted (table_name : string) (events : list pyval) (context : pyval)
    (db : database) (out : list string) (c : Z) :
  count_of db table_name = Some c →
  let run := invoke_all (dynamodb := client None) table_name events context
               {| store := db; stdout := out |} in
  count_of (store run.1) table_name
  = Some (c + Z.of_nat (length (List.filter accepts events)))
  ∧ statusCode <$> run.2 = served_status <$> events.
Proof.
  revert db out c. induction events as [|event events IH]; intros db out c Hc run; subst run.
  - cbn. split; [rewrite Hc; f_equal; lia | reflexivity].
  - cbn [invoke_all List.filter]. rewrite fmap_cons.
    destruct (MoreFacts.served_step table_name event context db out c Hc)
      as (db' & out' & r & -> & Hc' & Hr).
    specialize (IH db' out' _ Hc'). cbv zeta in IH.
    destruct (invoke_all table_name events context _) as [w2 rs].
    cbn [fst snd] in *. destruct IH as [IHc IHs].
    rewrite fmap_cons, IHc, IHs, Hr. split; [|reflexivity].
    f_equal. destruct (accepts event); cbn [length]; lia.
Qed.

Lemma mixed_batch_counts_two :
  let run := invoke_all (dynamodb := client None) "visits"
               [Scenario.event; Scenario.null_detail; Odd.zero_bucket; Odd.untyped_leaves]
               PNone Scenario.world in
  count_of (store run.1) "visits" = Some 2
  ∧ statusCode <$> run.2 = [200; 500; 500; 200].
Proof.
  apply (batch_counts_accepted "visits"
           [Scenario.event; Scenario.null_detail; Odd.zero_bucket; Odd.untyped_leaves]
           PNone Scenario.visits [] 0).
  reflexivity.
Defined.

(** X10. Validation comes before the store: an event that does not pass
    it gets the same answer whatever the client, the state of the store,
    the table name, the context and the earlier output, and leaves the
    store as it was, also when the store would have failed. *)
Theorem rejection_ignores_store {S1 S2 : Type} (store1 : Client S1) (store2 : Client S2)
    (table1 table2 : string) (event context1 context2 : pyval)
    (w1 : World S1) (w2 : World S2) :
  accepts event = false →
  (handler (dynamodb := store1) table1 event context1 w1).2
  = (handler (dynamodb := store2) table2 event context2 w2).2
  ∧ store (handler (dynamodb := store1) table1 event context1 w1).1 = store w1.
Proof.
  intros Hrej.
  pose proof (MoreFacts.accepts_checked table1 event) as H1.
  pose proof (MoreFacts.accepts_checked table2 event) as H2.
  rewrite Hrej in H1, H2.
  rewrite (handler_rejected table1 event context1 w1 _ H1),
    (handler_rejected table2 event context2 w2 _ H2). split; reflexivity.
Qed.

Lemma rejection_same_when_store_is_down :
  (handler (dynamodb := client (Some "Service unavailable")) "visits" Odd.zero_bucket PNone
     Scenario.world).2
  = (handler (dynamodb := Odd.silent) "other" Odd.zero_bucket (PStr "ctx")
       {| store := 7; stdout := ["earlier line"] |}).2
  ∧ store (handler (dynamodb := client (Some "Service unavailable")) "visits"
             Odd.zero_bucket PNone Scenario.world).1 = store Scenario.world.
Proof.
  apply (rejection_ignores_store (client (Some "Service unavailable")) Odd.silent
           "visits" "other" Odd.zero_bucket PNone (PStr "ctx") Scenario.world
           {| store := 7; stdout := ["earlier line"] |}).
  reflexivity.
Defined.


(** X12. Valid invocations running concurrently on a store that serves
    the calls never report the same count twice: once all have finished,
    each has answered 200 with its own count, the counts are pairwise
    distinct and lie between the initial count plus one and the initial
    count plus the number of invocations. *)
Theorem concurrent_counts_distinct (table_name : string) (events : list pyval)
    (context : pyval) (db : database) (c : Z) (final : database * list invocation) :
  Forall valid events →
  count_of db table_name = Some c →
  rtc (step (dynamodb := client None) table_name) (db, start_all events context) final →
  all_finished final.2 →
  ∃ counts : list Z,
    Forall2 (λ inv m, at_phase inv = Finished (success_result (pretty m))) final.2 counts
    ∧ NoDup counts
    ∧ Forall (λ m, c < m ≤ c + Z.of_nat (length events)) counts.
Proof.
  intros Hvalid Hc Hrun Hall.
  destruct (TicketFacts.steps_tickets_for table_name c _ _
              (TicketFacts.tickets_for_start table_name c events context db Hvalid Hc) Hrun)
    as (ns & Hholds & Hnodup & Hrange & _).
  destruct (TicketFacts.holds_all_finished table_name _ _ Hholds Hall) as [Hres Hlen].
  exists (omap id ns). split; [assumption|]. split; [assumption|].
  rewrite Hlen in Hrange.
  rewrite (TicketFacts.steps_length table_name _ _ Hrun) in Hrange.
  cbn [snd] in Hrange. unfold start_all in Hrange. now rewrite length_fmap in Hrange.
Qed.

Lemma two_interleaved_counts_differ :
  let final := run_schedule (dynamodb := client None) "visits" [0; 1; 1; 0; 0; 1]%nat
                 (Scenario.visits, start_all [Scenario.event; Scenario.noisy_event] PNone) in
  ∃ counts : list Z,
    Forall2 (λ inv m, at_phase inv = Finished (success_result (pretty m))) final.2 counts
    ∧ NoDup counts
    ∧ Forall (λ m, 0 < m ≤ 0 + Z.of_nat 2) counts.
Proof.
  intros final.
  refine (concurrent_counts_distinct "visits" [Scenario.event; Scenario.noisy_event]
            PNone Scenario.visits 0 final _ _ _ _).
  - repeat constructor; [exists "b" | exists "k" | exists "b" | exists "k"];
      (split; [reflexivity | discriminate]).
  - reflexivity.
  - apply ConcurrentFacts.run_schedule_steps.
  - vm_compute. repeat constructor.
Defined.
